(** * openpose-plus: the UFF inference runner (src/uff_engine.cpp)

    A shallow embedding of [uff_engine.cpp]: the helpers [volume],
    [elementSize] and [to_string], the engine builder ([create_engine],
    [loadModelAndCreateEngine]) and the class [uff_runner_impl] with its
    constructor, destructor, [createBuffers_] and [operator()].

    Conventions of the embedding.
    - Host and device memory are two flat byte-addressed memories.
    - Everything the code does to a collaborator (logger, standard output,
      device allocator, data mover, execution context, process exit) is
      recorded, in program order, in the [trace] of the [world].
    - A computation either finishes ([Done]), terminates the process
      ([Fatal]: a failed [assert] or [exit]), or leaves what the source
      defines ([Undef]: an out-of-range [std::vector] index, a tensor
      view that extends outside its allocation).
    - [assert] is modelled as compiled in (NDEBUG not defined).
    - [TRACE_SCOPE] (trace.hpp) only measures time and is not modelled;
      neither is the release of the parser, the builder and the network
      when their [destroy_ptr] goes out of scope.
    - Extents, sizes and addresses of tensors are mathematical integers:
      the width of the dimension type of the tensor library is not in
      this file.  The arithmetic that the file itself does ([volume] in
      [int64_t], the row width in [size_t]) wraps as the machine does.
    - The definition of [operator()] names [outputs] in its body although
      its own parameter list omits it; the embedding follows the
      declaration in the class, [(inputs, outputs, batch_size)]. *)

From Stdlib Require Import String Ascii DecimalString Strings.Byte.
From Stdlib Require Import ZArith Lia Bool List.
Import ListNotations.
Local Open Scope Z_scope.

(** ** Machine integers *)

Module MachineInt.

(** [int64_t]: two's complement, 64 bits. *)
Definition int64 (z : Z) : Z := (z + 2 ^ 63) mod 2 ^ 64 - 2 ^ 63.

(** [size_t] on the 64-bit targets the runner is built for. *)
Definition size_t (z : Z) : Z := z mod 2 ^ 64.

(** [std::to_string(int)]. *)
Definition to_string (z : Z) : string := NilZero.string_of_int (Z.to_int z).

End MachineInt.

(** ** Flat memories *)

Module Mem.

Definition mem : Type := Z -> byte.

(** The [n] bytes at addresses [p, p + n). *)
Definition load (m : mem) (p : Z) (n : nat) : list byte :=
  map (fun k => m (p + Z.of_nat k)) (seq 0 n).

(** Overwrite the addresses [p, p + length bs) with [bs]. *)
Definition store (m : mem) (p : Z) (bs : list byte) : mem :=
  fun a =>
    if (p <=? a) && (a <? p + Z.of_nat (length bs))
    then nth (Z.to_nat (a - p)) bs x00
    else m a.

Definition zeroed : mem := fun _ => x00.

(** A list of stores, applied first to last. *)
Definition stores (sts : list (Z * list byte)) (m : mem) : mem :=
  fold_left (fun m st => store m (fst st) (snd st)) sts m.

Definition covered (sts : list (Z * list byte)) (a : Z) : Prop :=
  exists st, In st sts /\ fst st <= a < fst st + Z.of_nat (length (snd st)).

End Mem.

Import Mem.

(** ** nvinfer1 data *)

(** [nvinfer1::DataType].  The runner handles the first three; [kINT32]
    is the enumerator that the source mentions and leaves commented out. *)
Inductive DataType : Type := kFLOAT | kHALF | kINT8 | kINT32.

(** [int(dtype)] *)
Definition DataType_to_int (t : DataType) : Z :=
  match t with kFLOAT => 0 | kHALF => 1 | kINT8 => 2 | kINT32 => 3 end.

(** [nvinfer1::Dims]: [nbDims] and the array [d]. *)
Record Dims : Type := mkDims { nbDims : Z; d : list Z }.

(** [d.d[i]] *)
Definition dim_at (dm : Dims) (i : nat) : Z := nth i (d dm) 0.

(** [ttl::range(n)] *)
Definition range (n : nat) : list nat := seq 0 n.

(** [volume]: [v = 1; for (i = 0; i < d.nbDims; i++) v *= d.d[i];] in
    [int64_t]. *)
Definition volume (dm : Dims) : Z :=
  fold_left (fun v i => MachineInt.int64 (v * dim_at dm i))
            (range (Z.to_nat (nbDims dm))) 1.

(** [std::string::pop_back].  On an empty string the call is undefined in
    the source; the value given for it here is reached only through
    [to_string] on a shape with [nbDims < 0]. *)
Fixpoint pop_back (s : string) : string :=
  match s with
  | EmptyString => EmptyString
  | String _ EmptyString => EmptyString
  | String c s' => String c (pop_back s')
  end.

(** [to_string(const nvinfer1::Dims &)].  For [nbDims < 0] the source
    skips the loop and pops twice from a one-character string, the second
    time from an empty one; the embedding is faithful for [0 <= nbDims],
    and what is proved about printed lines is stated there. *)
Definition Dims_to_string (dm : Dims) : string :=
  let s := "("%string in
  let s :=
    if nbDims dm =? 0 then s
    else
      let s := fold_left
                 (fun s i => (s ++ MachineInt.to_string (dim_at dm i) ++ ", ")%string)
                 (range (Z.to_nat (nbDims dm))) s in
      pop_back (pop_back s) in
  (s ++ ")")%string.

(** [to_string(const nvinfer1::DataType)] *)
Definition DataType_to_string (dtype : DataType) : string :=
  MachineInt.to_string (DataType_to_int dtype).

(** One tensor slot of a compiled engine, as the engine's query methods
    ([getBindingName], [getBindingDimensions], [getBindingDataType],
    [bindingIsInput]) report it. *)
Record Binding : Type := mkBinding {
  binding_name : string;
  binding_dims : Dims;
  binding_dtype : DataType;
  binding_is_input : bool
}.

(** [nvinfer1::ICudaEngine]: the binding table, and what
    [IExecutionContext::execute(batchSize, bindings)] does to device
    memory. *)
Record ICudaEngine : Type := mkEngine {
  bindings : list Binding;
  execute : Z -> list Z -> mem -> mem
}.

Definition default_binding : Binding :=
  mkBinding EmptyString (mkDims 0 []) kFLOAT false.

Definition getNbBindings (e : ICudaEngine) : nat := length (bindings e).
Definition getBinding (e : ICudaEngine) (i : nat) : Binding :=
  nth i (bindings e) default_binding.
Definition getBindingDimensions (e : ICudaEngine) (i : nat) : Dims :=
  binding_dims (getBinding e i).
Definition getBindingDataType (e : ICudaEngine) (i : nat) : DataType :=
  binding_dtype (getBinding e i).
Definition getBindingName (e : ICudaEngine) (i : nat) : string :=
  binding_name (getBinding e i).
Definition bindingIsInput (e : ICudaEngine) (i : nat) : bool :=
  binding_is_input (getBinding e i).

(** ** The world and its trace *)

Inductive event : Type :=
| EvLogError (msg : string)
| EvStdout (line : string)
| EvCudaMalloc (ptr size : Z)
| EvCudaFree (ptr : Z)
| EvCopyHostToDevice (dst src n : Z)
| EvCopyDeviceToHost (dst src n : Z)
| EvCreateExecutionContext (ctx : nat)
| EvExecute (ctx : nat) (batch_size : Z) (ptrs : list Z)
| EvDestroyContext (ctx : nat)
| EvDestroyEngine
| EvShutdownProtobufLibrary
| EvAbort
| EvExit (status : Z).

Record world : Type := mkWorld {
  host : mem;
  device : mem;
  dev_brk : Z;          (* first device address not yet handed out *)
  next_ctx : nat;       (* identity of the next execution context *)
  protobuf_up : bool;   (* process-wide state of the protobuf library *)
  trace : list event
}.

Definition add_event (e : event) (w : world) : world :=
  mkWorld (host w) (device w) (dev_brk w) (next_ctx w) (protobuf_up w)
          (trace w ++ [e]).

Definition set_host (h : mem) (w : world) : world :=
  mkWorld h (device w) (dev_brk w) (next_ctx w) (protobuf_up w) (trace w).

Definition set_device (m : mem) (w : world) : world :=
  mkWorld (host w) m (dev_brk w) (next_ctx w) (protobuf_up w) (trace w).

(** ** The monad of the embedding *)

Inductive result (A : Type) : Type :=
| Done (a : A) (w : world)
| Fatal (w : world)
| Undef.
Arguments Done {A} a w.
Arguments Fatal {A} w.
Arguments Undef {A}.

Definition M (A : Type) : Type := world -> result A.

Definition ret {A} (a : A) : M A := fun w => Done a w.

Definition bind {A B} (m : M A) (k : A -> M B) : M B :=
  fun w =>
    match m w with
    | Done a w' => k a w'
    | Fatal w' => Fatal w'
    | Undef => Undef
    end.

Declare Scope runner_scope.
Delimit Scope runner_scope with runner.
Notation "x <- c1 ;; c2" := (bind c1 (fun x => c2))
  (at level 100, c1 at next level, right associativity) : runner_scope.
Notation "c1 ;; c2" := (bind c1 (fun _ => c2))
  (at level 100, right associativity) : runner_scope.
Local Open Scope runner_scope.

Definition emit (e : event) : M unit := fun w => Done tt (add_event e w).

(** [assert(c)] *)
Definition assert_ (c : bool) : M unit :=
  fun w => if c then Done tt w else Fatal (add_event EvAbort w).

(** [exit(status)] *)
Definition exit_ {A} (status : Z) : M A :=
  fun w => Fatal (add_event (EvExit status) w).

Definition undefined {A} : M A := fun _ => Undef.

(** [v[i]] on a [std::vector] *)
Definition vec_at {A} (v : list A) (i : nat) : M A :=
  match nth_error v i with
  | Some x => ret x
  | None => undefined
  end.

(** A range-based [for] whose body updates the loop-carried state [s]. *)
Fixpoint foreach {I S : Type} (body : I -> S -> M S) (xs : list I) (s : S)
  : M S :=
  match xs with
  | [] => ret s
  | i :: xs' => s' <- body i s ;; foreach body xs' s'
  end.

(** [gLogger.log(Severity::kERROR, msg)] *)
Definition log_error (msg : string) : M unit := emit (EvLogError msg).

(** ** elementSize *)

(** [elementSize]: the [switch] returns 4, 2 or 1; any other value falls
    out of it into [assert(0); return 0;]. *)
Definition elementSize (t : DataType) : M Z :=
  match t with
  | kFLOAT => ret 4
  | kHALF => ret 2
  | kINT8 => ret 1
  | _ => assert_ false ;; ret 0
  end.

(** ** ttl tensors of rank 2 over [char] *)

(** [ttl::cuda_tensor<char, 2>], [ttl::tensor_ref<char, 2>] and
    [ttl::tensor_view<char, 2>]: a data pointer and the shape
    [rows, cols].  Which memory the pointer addresses is fixed by the
    operation applied to the tensor. *)
Record tensor : Type := mkTensor { data : Z; rows : Z; cols : Z }.

Definition size (t : tensor) : Z := rows t * cols t.

(** Modelled from the spec: the device-memory allocator behind
    [ttl::cuda_tensor]'s constructor is not part of this file.  It
    "provides allocation of byte buffers on the compute device, addressable
    by a stable pointer"; here it hands out consecutive regions and never
    fails. *)
Definition cudaMalloc (n : Z) : M Z :=
  fun w =>
    let p := dev_brk w in
    Done p (mkWorld (host w) (device w) (p + n) (next_ctx w) (protobuf_up w)
                    (trace w ++ [EvCudaMalloc p n])).

Definition cudaFree (p : Z) : M unit := emit (EvCudaFree p).

(** [cuda_buffer_t(batch_size, n)]: a device tensor of shape
    [batch_size, n] owning [batch_size * n] bytes.  A negative extent is
    outside what the tensor library defines. *)
Definition new_cuda_tensor (r c : Z) : M tensor :=
  if (0 <=? r) && (0 <=? c) then
    p <- cudaMalloc (r * c) ;;
    ret (mkTensor p r c)
  else undefined.

(** [t.slice(i, j)]: the rows [i, j) of [t].  The view itself is not
    checked by the library; a view that leaves the rows of [t] is outside
    the allocation. *)
Definition slice (t : tensor) (i j : Z) : M tensor :=
  if (0 <=? i) && (i <=? j) && (j <=? rows t)
  then ret (mkTensor (data t + i * cols t) (j - i) (cols t))
  else undefined.

(** [ttl::copy(dst, src)] with [dst] on the device and [src] on the host. *)
Definition copy_to_device (dst src : tensor) : M unit :=
  fun w =>
    let n := size src in
    Done tt (add_event (EvCopyHostToDevice (data dst) (data src) n)
               (set_device (store (device w) (data dst)
                                  (load (host w) (data src) (Z.to_nat n))) w)).

(** [ttl::copy(dst, src)] with [dst] on the host and [src] on the device. *)
Definition copy_to_host (dst src : tensor) : M unit :=
  fun w =>
    let n := size src in
    Done tt (add_event (EvCopyDeviceToHost (data dst) (data src) n)
               (set_host (store (host w) (data dst)
                                (load (device w) (data src) (Z.to_nat n))) w)).

(** ** The engine builder *)

(** [nvuffparser::UffInputOrder] *)
Inductive UffInputOrder : Type := kNCHW | kNHWC | kNC.

(** [nvinfer1::DimsCHW(c, h, w)] *)
Record DimsCHW : Type := mkDimsCHW { chw_c : Z; chw_h : Z; chw_w : Z }.

(** [nvuffparser::IUffParser]: what has been registered so far. *)
Record IUffParser : Type := mkParser {
  registered_inputs : list (string * DimsCHW * UffInputOrder);
  registered_outputs : list string
}.

Definition createUffParser : IUffParser := mkParser [] [].

Definition registerInput (name : string) (dims : DimsCHW)
           (order : UffInputOrder) (p : IUffParser) : IUffParser :=
  mkParser (registered_inputs p ++ [(name, dims, order)])
           (registered_outputs p).

Definition registerOutput (name : string) (p : IUffParser) : IUffParser :=
  mkParser (registered_inputs p) (registered_outputs p ++ [name]).

(** Modelled from the spec: the model-compilation backend (NvInfer.h,
    NvUffParser.h) is not part of this file.  It "accepts a model artifact
    path, an input registration list, an output registration list, a
    maximum batch size, and a precision selector; returns a compiled
    engine [...] or signals failure".  [parse] is [IUffParser::parse],
    which answers [false] ([None]) or fills the network; it runs on the
    process-wide protobuf library, whose state it is given.
    [buildCudaEngine] is [IBuilder::buildCudaEngine] after
    [setMaxBatchSize]; it answers [nullptr] ([None]) or an engine. *)
Record Backend : Type := mkBackend {
  INetworkDefinition : Type;
  parse : bool -> string -> IUffParser -> DataType ->
          option INetworkDefinition;
  buildCudaEngine : Z -> INetworkDefinition -> option ICudaEngine
}.

Definition protobuf_state : M bool := fun w => Done (protobuf_up w) w.

(** [loadModelAndCreateEngine]; [nullptr] is [None]. *)
Definition loadModelAndCreateEngine (bk : Backend) (uffFile : string)
           (max_batch_size : Z) (parser : IUffParser) (dtype : DataType)
  : M (option ICudaEngine) :=
  pb <- protobuf_state ;;
  match parse bk pb uffFile parser dtype with
  | None =>
      log_error ("Failed to created engine of data type: "
                   ++ DataType_to_string dtype)%string ;;
      ret None
  | Some network => ret (buildCudaEngine bk max_batch_size network)
  end.

(** [input_info_t] *)
Definition input_info_t : Type := list (string * list Z).

(** [create_engine] *)
Definition create_engine (bk : Backend) (model_file : string)
           (input_info : input_info_t) (output_names : list string)
           (max_batch_size : Z) (dtype : DataType) : M ICudaEngine :=
  parser <- foreach
              (fun (info : string * list Z) parser =>
                 let dims := snd info in
                 c <- vec_at dims 0 ;;
                 h <- vec_at dims 1 ;;
                 w <- vec_at dims 2 ;;
                 ret (registerInput (fst info) (mkDimsCHW c h w) kNCHW parser))
              input_info createUffParser ;;
  parser <- foreach (fun name parser => ret (registerOutput name parser))
              output_names parser ;;
  engine <- loadModelAndCreateEngine bk model_file max_batch_size parser
                                     dtype ;;
  match engine with
  | None => log_error "Failed to created engine" ;; exit_ 1
  | Some e => ret e
  end.

(** ** The runner *)

(** [class uff_runner_impl]; [cuda_buffer_t] is [tensor], with the shape
    [batch_size, data_size]. *)
Record uff_runner_impl : Type := mkRunner {
  max_batch_size : Z;
  engine_ : ICudaEngine;
  buffers_ : list tensor
}.

(** The body of the loop of [createBuffers_]. *)
Definition createBuffers_body (engine : ICudaEngine) (batch_size : Z)
           (i : nat) (buffers : list tensor) : M (list tensor) :=
  let dims := getBindingDimensions engine i in
  let dtype := getBindingDataType engine i in
  let name := getBindingName engine i in
  emit (EvStdout ("binding " ++ MachineInt.to_string (Z.of_nat i) ++ ":"
                    ++ " name: " ++ name ++ " type"
                    ++ DataType_to_string dtype ++ Dims_to_string dims)%string) ;;
  es <- elementSize dtype ;;
  b <- new_cuda_tensor batch_size (MachineInt.size_t (volume dims * es)) ;;
  ret (buffers ++ [b]).

(** [uff_runner_impl::createBuffers_]: [buffers] is the member [buffers_],
    empty when the constructor calls. *)
Definition createBuffers_ (engine : ICudaEngine) (batch_size : Z)
           (buffers : list tensor) : M (list tensor) :=
  foreach (createBuffers_body engine batch_size)
          (range (getNbBindings engine)) buffers.

(** [uff_runner_impl::uff_runner_impl] *)
Definition new_uff_runner_impl (bk : Backend) (model_file : string)
           (input_info : input_info_t) (output_names : list string)
           (max_batch : Z) (dtype : DataType) : M uff_runner_impl :=
  engine <- create_engine bk model_file input_info output_names max_batch
                          dtype ;;
  buffers <- createBuffers_ engine max_batch [] ;;
  ret (mkRunner max_batch engine buffers).

(** [nvuffparser::shutdownProtobufLibrary] (NvUffParser.h): it releases
    the protobuf library, which is one per process. *)
Definition shutdownProtobufLibrary : M unit :=
  fun w =>
    Done tt (mkWorld (host w) (device w) (dev_brk w) (next_ctx w) false
                     (trace w ++ [EvShutdownProtobufLibrary])).

(** [uff_runner_impl::~uff_runner_impl]: the body, then the members in
    reverse order of declaration: the buffers are released, the engine is
    destroyed. *)
Definition delete_uff_runner_impl (r : uff_runner_impl) : M unit :=
  shutdownProtobufLibrary ;;
  foreach (fun b (_ : unit) => cudaFree (data b)) (buffers_ r) tt ;;
  emit EvDestroyEngine.

(** [engine_->createExecutionContext()] *)
Definition createExecutionContext (e : ICudaEngine) : M nat :=
  fun w =>
    let c := next_ctx w in
    Done c (mkWorld (host w) (device w) (dev_brk w) (S c) (protobuf_up w)
                    (trace w ++ [EvCreateExecutionContext c])).

(** [context->execute(batch_size, ptrs)]; the source drops the answer. *)
Definition context_execute (e : ICudaEngine) (ctx : nat) (batch_size : Z)
           (ptrs : list Z) : M unit :=
  fun w =>
    Done tt (add_event (EvExecute ctx batch_size ptrs)
               (set_device (execute e batch_size ptrs (device w)) w)).

(** [context->destroy()] *)
Definition context_destroy (ctx : nat) : M unit := emit (EvDestroyContext ctx).

(** The body of the loop under "copy input from host"; [idx] is the
    loop-carried index into [inputs]. *)
Definition copy_input_from_host (r : uff_runner_impl) (inputs : list Z)
           (batch_size : Z) (i : nat) (idx : nat) : M nat :=
  if bindingIsInput (engine_ r) i then
    b <- vec_at (buffers_ r) i ;;
    buffer <- slice b 0 batch_size ;;
    p <- vec_at inputs idx ;;
    let input := mkTensor p (rows buffer) (cols buffer) in
    copy_to_device buffer input ;;
    ret (S idx)
  else ret idx.

(** The body of the loop under "copy output to host". *)
Definition copy_output_to_host (r : uff_runner_impl) (outputs : list Z)
           (batch_size : Z) (i : nat) (idx : nat) : M nat :=
  if negb (bindingIsInput (engine_ r) i) then
    b <- vec_at (buffers_ r) i ;;
    buffer <- slice b 0 batch_size ;;
    p <- vec_at outputs idx ;;
    let output := mkTensor p (rows buffer) (cols buffer) in
    copy_to_host output buffer ;;
    ret (S idx)
  else ret idx.

(** The block under "uff_runner_impl::context->execute". *)
Definition context_execute_block (r : uff_runner_impl) (batch_size : Z)
  : M unit :=
  context <- createExecutionContext (engine_ r) ;;
  let buffer_ptrs_ := map data (buffers_ r) in
  context_execute (engine_ r) context batch_size buffer_ptrs_ ;;
  context_destroy context.

(** [uff_runner_impl::operator()], the [invoke] of the specification. *)
Definition invoke (r : uff_runner_impl) (inputs outputs : list Z)
           (batch_size : Z) : M unit :=
  assert_ (batch_size <=? max_batch_size r) ;;
  _ <- foreach (copy_input_from_host r inputs batch_size)
               (range (length (buffers_ r))) 0%nat ;;
  context_execute_block r batch_size ;;
  _ <- foreach (copy_output_to_host r outputs batch_size)
               (range (length (buffers_ r))) 0%nat ;;
  ret tt.

(** ** The three steps of an invocation, as the specification words them *)

(** The binding indices, in increasing order, that are inputs (outputs). *)
Definition input_indices (r : uff_runner_impl) : list nat :=
  filter (bindingIsInput (engine_ r)) (range (length (buffers_ r))).

Definition output_indices (r : uff_runner_impl) : list nat :=
  filter (fun i => negb (bindingIsInput (engine_ r) i))
         (range (length (buffers_ r))).

Definition nth_buffer (r : uff_runner_impl) (i : nat) : tensor :=
  nth i (buffers_ r) (mkTensor 0 0 0).

(** The number of bytes in the first [batch_size] rows of buffer [i]. *)
Definition slice_bytes (r : uff_runner_impl) (batch_size : Z) (i : nat) : Z :=
  batch_size * cols (nth_buffer r i).

(** Copy [batch_size] rows from the host pointer [p] into the first rows of
    the device buffer of binding [i]. *)
Definition copy_in_one (r : uff_runner_impl) (batch_size : Z) (w : world)
           (ip : nat * Z) : world :=
  let b := nth_buffer r (fst ip) in
  let n := slice_bytes r batch_size (fst ip) in
  add_event (EvCopyHostToDevice (data b) (snd ip) n)
    (set_device (store (device w) (data b)
                       (load (host w) (snd ip) (Z.to_nat n))) w).

(** Copy the first [batch_size] rows of the device buffer of binding [i]
    to the host pointer [p]. *)
Definition copy_out_one (r : uff_runner_impl) (batch_size : Z) (w : world)
           (ip : nat * Z) : world :=
  let b := nth_buffer r (fst ip) in
  let n := slice_bytes r batch_size (fst ip) in
  add_event (EvCopyDeviceToHost (snd ip) (data b) n)
    (set_host (store (host w) (snd ip)
                     (load (device w) (data b) (Z.to_nat n))) w).

(** Step 1: every input binding, in binding order, with the host pointers
    consumed in order. *)
Definition copy_in_step (r : uff_runner_impl) (inputs : list Z)
           (batch_size : Z) (w : world) : world :=
  fold_left (copy_in_one r batch_size) (combine (input_indices r) inputs) w.

(** Step 2: a fresh context, one execution over the pointers of all the
    buffers in binding order, and the end of the context. *)
Definition execute_step (r : uff_runner_impl) (batch_size : Z) (w : world)
  : world :=
  let c := next_ctx w in
  let ptrs := map data (buffers_ r) in
  mkWorld (host w) (execute (engine_ r) batch_size ptrs (device w))
          (dev_brk w) (S c) (protobuf_up w)
          (trace w ++ [EvCreateExecutionContext c;
                       EvExecute c batch_size ptrs;
                       EvDestroyContext c]).

(** Step 3: every output binding, in binding order, with the host pointers
    consumed in order. *)
Definition copy_out_step (r : uff_runner_impl) (outputs : list Z)
           (batch_size : Z) (w : world) : world :=
  fold_left (copy_out_one r batch_size) (combine (output_indices r) outputs) w.

(** The three steps in order. *)
Definition three_steps (r : uff_runner_impl) (inputs outputs : list Z)
           (batch_size : Z) (w : world) : world :=
  copy_out_step r outputs batch_size
    (execute_step r batch_size (copy_in_step r inputs batch_size w)).

(** What a caller owes to [invoke]: the batch size within the bounds, and a
    host pointer for every input and for every output binding. *)
Definition call_ok (r : uff_runner_impl) (inputs outputs : list Z)
           (batch_size : Z) : Prop :=
  0 <= batch_size <= max_batch_size r /\
  (length (input_indices r) <= length inputs)%nat /\
  (length (output_indices r) <= length outputs)%nat.

(** The address [a] lies in the first [batch_size] rows of [b]. *)
Definition in_slice (b : tensor) (batch_size : Z) (a : Z) : Prop :=
  data b <= a < data b + batch_size * cols b.

(** What construction establishes about the buffers of a runner. *)
Record runner_wf (r : uff_runner_impl) : Prop := mkRunnerWf {
  wf_count : length (buffers_ r) = getNbBindings (engine_ r);
  wf_rows : Forall (fun b => rows b = max_batch_size r) (buffers_ r);
  wf_cols : Forall (fun b => 0 <= cols b) (buffers_ r);
  wf_apart : ForallOrdPairs (fun b1 b2 => data b1 + size b1 <= data b2)
                            (buffers_ r)
}.

(** The store and the event of one copy of step 1, reading the host
    memory [h]. *)
Definition in_store (r : uff_runner_impl) (batch_size : Z) (h : mem)
           (ip : nat * Z) : Z * list byte :=
  (data (nth_buffer r (fst ip)),
   load h (snd ip) (Z.to_nat (slice_bytes r batch_size (fst ip)))).

Definition in_event (r : uff_runner_impl) (batch_size : Z) (ip : nat * Z)
  : event :=
  EvCopyHostToDevice (data (nth_buffer r (fst ip))) (snd ip)
                     (slice_bytes r batch_size (fst ip)).

(** The store and the event of one copy of step 3, reading the device
    memory [dv]. *)
Definition out_store (r : uff_runner_impl) (batch_size : Z) (dv : mem)
           (ip : nat * Z) : Z * list byte :=
  (snd ip,
   load dv (data (nth_buffer r (fst ip)))
        (Z.to_nat (slice_bytes r batch_size (fst ip)))).

Definition out_event (r : uff_runner_impl) (batch_size : Z) (ip : nat * Z)
  : event :=
  EvCopyDeviceToHost (snd ip) (data (nth_buffer r (fst ip)))
                     (slice_bytes r batch_size (fst ip)).

(** ** Construction, as the specification words it *)

(** The shape of a binding: its [nbDims] dimension sizes. *)
Definition shape (dm : Dims) : list Z :=
  map (dim_at dm) (range (Z.to_nat (nbDims dm))).

Definition product (l : list Z) : Z := fold_right Z.mul 1 l.

(** "Volume = product of shape dimensions". *)
Definition spec_volume (b : Binding) : Z := product (shape (binding_dims b)).

(** "4 for 32-bit float, 2 for 16-bit float, 1 for 8-bit integer"; no
    size for any other type. *)
Definition spec_elementByteSize (t : DataType) : option Z :=
  match t with
  | kFLOAT => Some 4
  | kHALF => Some 2
  | kINT8 => Some 1
  | kINT32 => None
  end.

(** The line that [createBuffers_] prints for binding [i]. *)
Definition binding_line (engine : ICudaEngine) (i : nat) : string :=
  ("binding " ++ MachineInt.to_string (Z.of_nat i) ++ ":"
     ++ " name: " ++ getBindingName engine i ++ " type"
     ++ DataType_to_string (getBindingDataType engine i)
     ++ Dims_to_string (getBindingDimensions engine i))%string.

(** The buffer that [createBuffers_] makes for binding [i] when the next
    free device address is [p]. *)
Definition buffer_for (engine : ICudaEngine) (batch_size : Z) (i : nat)
           (es : Z) (p : Z) : tensor :=
  mkTensor p batch_size
           (MachineInt.size_t (volume (getBindingDimensions engine i) * es)).

(** What holds of binding [i] and the buffer made for it. *)
Definition made_for (engine : ICudaEngine) (batch_size : Z) (i : nat)
           (b : tensor) : Prop :=
  exists es,
    spec_elementByteSize (getBindingDataType engine i) = Some es /\
    rows b = batch_size /\
    cols b = MachineInt.size_t (volume (getBindingDimensions engine i) * es) /\
    0 <= batch_size.

(** Buffers that lie one after the other from the address [p] on. *)
Fixpoint laid_out (p : Z) (l : list tensor) : Prop :=
  match l with
  | [] => True
  | b :: l' => data b = p /\ laid_out (p + size b) l'
  end.

Definition total_size (l : list tensor) : Z :=
  fold_right (fun b acc => size b + acc) 0 l.

(** The parser after the registration loops of [create_engine]. *)
Definition registered_parser (input_info : input_info_t)
           (output_names : list string) : IUffParser :=
  mkParser
    (map (fun info : string * list Z =>
            (fst info,
             mkDimsCHW (nth 0 (snd info) 0) (nth 1 (snd info) 0)
                       (nth 2 (snd info) 0),
             kNCHW))
         input_info)
    output_names.

(** The requests to the device allocator in a trace. *)
Definition is_allocation (e : event) : bool :=
  match e with
  | EvCudaMalloc _ _ | EvCudaFree _ => true
  | _ => false
  end.

Definition allocations (evs : list event) : list event :=
  filter is_allocation evs.

(** ** Sequences of invocations *)

(** One call: the input pointers, the output pointers, the batch size. *)
Definition call : Type := (list Z * list Z) * Z.

Definition call_inputs (c : call) : list Z := fst (fst c).
Definition call_outputs (c : call) : list Z := snd (fst c).
Definition call_batch (c : call) : Z := snd c.

(** The calls of a list, one after the other, on the same runner. *)
Definition invoke_calls (r : uff_runner_impl) (calls : list call) : M unit :=
  foreach (fun (c : call) (_ : unit) =>
             invoke r (call_inputs c) (call_outputs c) (call_batch c))
          calls tt.

(** The pointer lists handed to [execute] in a trace. *)
Definition executed_ptrs (evs : list event) : list (list Z) :=
  flat_map (fun e => match e with
                     | EvExecute _ _ ptrs => [ptrs]
                     | _ => []
                     end) evs.

(** The device pointers of the copies in a trace. *)
Definition copied_device_ptrs (evs : list event) : list Z :=
  flat_map (fun e => match e with
                     | EvCopyHostToDevice dst _ _ => [dst]
                     | EvCopyDeviceToHost _ src _ => [src]
                     | _ => []
                     end) evs.

(** What one invocation adds to the trace. *)
Definition invocation_events (r : uff_runner_impl) (inputs outputs : list Z)
           (batch_size : Z) (ctx : nat) : list event :=
  map (in_event r batch_size) (combine (input_indices r) inputs)
  ++ [EvCreateExecutionContext ctx;
      EvExecute ctx batch_size (map data (buffers_ r));
      EvDestroyContext ctx]
  ++ map (out_event r batch_size) (combine (output_indices r) outputs).

(** ** What the runner asks of the backend *)

(** An execution with batch size [batch_size] over the buffers of [r]
    writes device memory only inside the first [batch_size] rows of these
    buffers. *)
Definition execute_within_slices (r : uff_runner_impl) (batch_size : Z)
  : Prop :=
  forall dev a,
    (forall b, In b (buffers_ r) -> ~ in_slice b batch_size a) ->
    execute (engine_ r) batch_size (map data (buffers_ r)) dev a = dev a.

(** A deterministic backend: what an execution leaves in the first
    [batch_size] rows of the output buffers is a function of what it found
    in the first [batch_size] rows of the input buffers. *)
Definition execute_deterministic (r : uff_runner_impl) (batch_size : Z)
  : Prop :=
  forall dev1 dev2,
    (forall i, In i (input_indices r) ->
               load dev1 (data (nth_buffer r i))
                    (Z.to_nat (slice_bytes r batch_size i))
               = load dev2 (data (nth_buffer r i))
                      (Z.to_nat (slice_bytes r batch_size i))) ->
    forall i, In i (output_indices r) ->
              load (execute (engine_ r) batch_size (map data (buffers_ r))
                            dev1)
                   (data (nth_buffer r i))
                   (Z.to_nat (slice_bytes r batch_size i))
              = load (execute (engine_ r) batch_size (map data (buffers_ r))
                              dev2)
                     (data (nth_buffer r i))
                     (Z.to_nat (slice_bytes r batch_size i)).

(** The event addresses device memory only through the first
    [batch_size] rows of a buffer of [r]. *)
Definition within_slices (r : uff_runner_impl) (batch_size : Z) (e : event)
  : Prop :=
  match e with
  | EvCopyHostToDevice dst _ n =>
      exists b, In b (buffers_ r) /\ dst = data b /\ n = batch_size * cols b
  | EvCopyDeviceToHost _ src n =>
      exists b, In b (buffers_ r) /\ src = data b /\ n = batch_size * cols b
  | EvExecute _ n ptrs => n = batch_size /\ ptrs = map data (buffers_ r)
  | EvCreateExecutionContext _ | EvDestroyContext _ => True
  | _ => False
  end.

(** The host address [a] lies in the region that step 3 writes for some
    output binding. *)
Definition in_output_region (r : uff_runner_impl) (outputs : list Z)
           (batch_size : Z) (a : Z) : Prop :=
  exists i p,
    In (i, p) (combine (output_indices r) outputs) /\
    p <= a < p + slice_bytes r batch_size i.

(** ** A small concrete instance *)

Module Sample.

(** One input of shape (3, 2, 2) in 32-bit floats, two outputs. *)
Definition image : Binding :=
  mkBinding "image" (mkDims 3 [3; 2; 2; 0; 0; 0; 0; 0]) kFLOAT true.
Definition conf : Binding :=
  mkBinding "outputs/conf" (mkDims 3 [2; 1; 1; 0; 0; 0; 0; 0]) kFLOAT false.
Definition paf : Binding :=
  mkBinding "outputs/paf" (mkDims 3 [1; 1; 1; 0; 0; 0; 0; 0]) kHALF false.

(** A stand-in for the compiled network: each output row is a prefix of
    the bytes of the input rows. *)
Definition run (batch_size : Z) (ptrs : list Z) (dev : mem) : mem :=
  match ptrs with
  | [pin; pconf; ppaf] =>
      store (store dev pconf (load dev pin (Z.to_nat (batch_size * 8))))
            ppaf (load dev pin (Z.to_nat (batch_size * 2)))
  | _ => dev
  end.

Definition engine : ICudaEngine := mkEngine [image; conf; paf] run.

(** A backend that parses every file and builds [engine]. *)
Definition backend : Backend :=
  mkBackend unit (fun _ _ _ _ => Some tt) (fun _ _ => Some engine).

(** A backend whose parser rejects the model. *)
Definition backend_no_parse : Backend :=
  mkBackend unit (fun _ _ _ _ => None) (fun _ _ => Some engine).

(** A backend that parses the model and then builds no engine. *)
Definition backend_no_build : Backend :=
  mkBackend unit (fun _ _ _ _ => Some tt) (fun _ _ => None).


(** An engine with an output of 32-bit integers, and a backend that builds
    it. *)
Definition counts : Binding :=
  mkBinding "outputs/counts" (mkDims 3 [2; 1; 1; 0; 0; 0; 0; 0]) kINT32 false.
Definition engine_int32 : ICudaEngine := mkEngine [image; counts; paf] run.
Definition backend_int32 : Backend :=
  mkBackend unit (fun _ _ _ _ => Some tt) (fun _ _ => Some engine_int32).

(** A backend whose parser needs the protobuf library: it parses only
    while the library is up. *)
Definition backend_on_protobuf : Backend :=
  mkBackend unit (fun pb _ _ _ => if pb then Some tt else None)
            (fun _ _ => Some engine).

Definition input_info : input_info_t := [("image"%string, [3; 2; 2])].
Definition output_names : list string :=
  ["outputs/conf"%string; "outputs/paf"%string].

Definition world0 : world := mkWorld zeroed zeroed 0 0 true [].

(** The runner that construction over [backend] with a maximum batch of
    4 yields: buffers of 4 x 48, 4 x 8 and 4 x 2 bytes. *)
Definition runner : uff_runner_impl :=
  mkRunner 4 engine [mkTensor 0 4 48; mkTensor 192 4 8; mkTensor 224 4 2].

(** The world after that construction from [world0]. *)
Definition world_built : world :=
  mkWorld zeroed zeroed 232 0 true
          [EvStdout "binding 0: name: image type0(3, 2, 2)";
           EvCudaMalloc 0 192;
           EvStdout "binding 1: name: outputs/conf type0(2, 1, 1)";
           EvCudaMalloc 192 32;
           EvStdout "binding 2: name: outputs/paf type1(1, 1, 1)";
           EvCudaMalloc 224 8].

(** Host memory with the bytes 0, 1, 2, ... from address 1000 on. *)
Definition host1 : mem :=
  fun a => if (1000 <=? a) && (a <? 1256)
           then match Byte.of_N (Z.to_N (a - 1000)) with
                | Some b => b
                | None => x00
                end
           else x00.

Definition world1 : world := mkWorld host1 zeroed 232 0 true [].

(** The world after one invocation with batch size 2 from [world1]. *)
Definition world2 : world :=
  three_steps runner [1000] [2000; 3000] 2 world1.

End Sample.


(** ** Further vocabulary for the properties of the code *)

(** The pointers handed out, and the pointers released, in a trace. *)
Definition malloc_ptrs (evs : list event) : list Z :=
  flat_map (fun e => match e with
                     | EvCudaMalloc p _ => [p]
                     | _ => []
                     end) evs.

Definition freed_ptrs (evs : list event) : list Z :=
  flat_map (fun e => match e with
                     | EvCudaFree p => [p]
                     | _ => []
                     end) evs.

(** The lines printed on standard output in a trace. *)
Definition stdout_lines (evs : list event) : list string :=
  flat_map (fun e => match e with
                     | EvStdout l => [l]
                     | _ => []
                     end) evs.

(** The calls on execution contexts in a trace. *)
Definition is_context_event (e : event) : bool :=
  match e with
  | EvCreateExecutionContext _ | EvExecute _ _ _ | EvDestroyContext _ => true
  | _ => false
  end.

Definition context_events (evs : list event) : list event :=
  filter is_context_event evs.

(** One context per call, made, used once and destroyed, starting with the
    context [c]. *)
Fixpoint contexts_of_calls (r : uff_runner_impl) (calls : list call)
         (c : nat) : list event :=
  match calls with
  | [] => []
  | cl :: calls' =>
      EvCreateExecutionContext c
        :: EvExecute c (call_batch cl) (map data (buffers_ r))
        :: EvDestroyContext c
        :: contexts_of_calls r calls' (S c)
  end.

(** The input description with every shape cut after its third extent. *)
Definition first_three (input_info : input_info_t) : input_info_t :=
  map (fun info : string * list Z => (fst info, firstn 3 (snd info)))
      input_info.

(** The host regions of two (binding, pointer) pairs do not meet. *)
Definition host_apart (r : uff_runner_impl) (batch_size : Z)
           (ip1 ip2 : nat * Z) : Prop :=
  snd ip1 + slice_bytes r batch_size (fst ip1) <= snd ip2 \/
  snd ip2 + slice_bytes r batch_size (fst ip2) <= snd ip1.

(** The binding indices [xs] all have a supported element type. *)
Definition all_supported (engine : ICudaEngine) (xs : list nat) : Prop :=
  Forall (fun i => spec_elementByteSize (getBindingDataType engine i) <> None)
         xs.

(** The regions written by two stores do not meet. *)
Definition store_apart (st1 st2 : Z * list byte) : Prop :=
  fst st1 + Z.of_nat (length (snd st1)) <= fst st2 \/
  fst st2 + Z.of_nat (length (snd st2)) <= fst st1.

(** The numbers of bytes moved by the copies in a trace. *)
Definition copied_bytes (evs : list event) : list Z :=
  flat_map (fun e => match e with
                     | EvCopyHostToDevice _ _ n => [n]
                     | EvCopyDeviceToHost _ _ n => [n]
                     | _ => []
                     end) evs.

(** ** Backend stubs *)

Module Stub.





End Stub.
(** * Properties *)

(** ** Loads and stores *)

Section MemFacts.

Lemma load_length (m : mem) (p : Z) (n : nat) : length (load m p n) = n.
Proof. unfold load. now rewrite length_map, length_seq. Qed.

Lemma nth_load (m : mem) (p : Z) (n k : nat) :
  (k < n)%nat -> nth k (load m p n) x00 = m (p + Z.of_nat k).
Proof.
  intros Hk. unfold load.
  set (f := fun k => m (p + Z.of_nat k)).
  rewrite (nth_indep _ x00 (f 0%nat))
    by now rewrite length_map, length_seq.
  rewrite map_nth, seq_nth by exact Hk. reflexivity.
Qed.

Lemma store_inside (m : mem) (p : Z) (bs : list byte) (a : Z) :
  p <= a < p + Z.of_nat (length bs) ->
  store m p bs a = nth (Z.to_nat (a - p)) bs x00.
Proof.
  intros [H1 H2]. unfold store.
  apply Z.leb_le in H1. apply Z.ltb_lt in H2. now rewrite H1, H2.
Qed.

Lemma store_outside (m : mem) (p : Z) (bs : list byte) (a : Z) :
  ~ (p <= a < p + Z.of_nat (length bs)) -> store m p bs a = m a.
Proof.
  intros H. unfold store.
  destruct (p <=? a) eqn:E1; [| reflexivity].
  destruct (a <? p + Z.of_nat (length bs)) eqn:E2; [| reflexivity].
  apply Z.leb_le in E1. apply Z.ltb_lt in E2. exfalso. apply H. lia.
Qed.

Lemma load_ext (m1 m2 : mem) (p : Z) (n : nat) :
  (forall a, p <= a < p + Z.of_nat n -> m1 a = m2 a) ->
  load m1 p n = load m2 p n.
Proof.
  intros H. unfold load. apply map_ext_in. intros k Hk.
  apply in_seq in Hk. apply H. lia.
Qed.

Lemma load_eq_inv (m1 m2 : mem) (p : Z) (n : nat) (a : Z) :
  load m1 p n = load m2 p n -> p <= a < p + Z.of_nat n -> m1 a = m2 a.
Proof.
  intros H Ha.
  assert (Hk : (Z.to_nat (a - p) < n)%nat) by lia.
  pose proof (nth_load m1 p n _ Hk) as E1.
  pose proof (nth_load m2 p n _ Hk) as E2.
  rewrite H in E1. rewrite E1 in E2.
  replace (p + Z.of_nat (Z.to_nat (a - p))) with a in E2 by lia.
  exact E2.
Qed.

Lemma load_store_same (m : mem) (p : Z) (bs : list byte) :
  load (store m p bs) p (length bs) = bs.
Proof.
  apply (nth_ext _ _ x00 x00).
  - apply load_length.
  - intros k Hk. rewrite load_length in Hk.
    rewrite nth_load by exact Hk.
    rewrite store_inside by lia. f_equal. lia.
Qed.

Lemma stores_frame (sts : list (Z * list byte)) :
  forall m a, ~ covered sts a -> stores sts m a = m a.
Proof.
  induction sts as [| st sts IH]; intros m a H; [reflexivity |].
  cbn. rewrite IH.
  - apply store_outside. intros Hin. apply H. exists st. split; [now left | exact Hin].
  - intros [st' [Hin Hst']]. apply H. exists st'. split; [now right | exact Hst'].
Qed.

Lemma stores_agree_gen (sts : list (Z * list byte)) :
  forall m1 m2 a, covered sts a \/ m1 a = m2 a ->
                  stores sts m1 a = stores sts m2 a.
Proof.
  induction sts as [| st sts IH]; intros m1 m2 a H.
  - destruct H as [[st [[] _]] | H]. exact H.
  - cbn. apply IH.
    destruct H as [[st' [[-> | Hin] Hst']] | H].
    + right. now rewrite !store_inside.
    + left. exists st'. now split.
    + right. unfold store. rewrite H. reflexivity.
Qed.

Lemma stores_agree (sts : list (Z * list byte)) (m1 m2 : mem) (a : Z) :
  covered sts a -> stores sts m1 a = stores sts m2 a.
Proof. intros H. apply stores_agree_gen. now left. Qed.

End MemFacts.

(** ** The monad *)

Lemma bind_Done {A B} (m : M A) (k : A -> M B) (w w' : world) (a : A) :
  m w = Done a w' -> bind m k w = k a w'.
Proof. intros H. unfold bind. now rewrite H. Qed.

Lemma vec_at_Some {A} (v : list A) (i : nat) (x : A) (w : world) :
  nth_error v i = Some x -> vec_at v i w = Done x w.
Proof. intros H. unfold vec_at. now rewrite H. Qed.

(** ** The copy loops are folds over the paired indices and pointers *)

Section CopyLoops.

Variable r : uff_runner_impl.
Variable batch_size : Z.

Lemma copy_ins_world (l : list (nat * Z)) :
  forall w,
    fold_left (copy_in_one r batch_size) l w
    = mkWorld (host w)
              (stores (map (in_store r batch_size (host w)) l) (device w))
              (dev_brk w) (next_ctx w) (protobuf_up w)
              (trace w ++ map (in_event r batch_size) l).
Proof.
  induction l as [| ip l IH]; intros w.
  - destruct w; cbn. now rewrite app_nil_r.
  - cbn [fold_left]. rewrite IH. cbn. now rewrite <- app_assoc.
Qed.

Lemma copy_outs_world (l : list (nat * Z)) :
  forall w,
    fold_left (copy_out_one r batch_size) l w
    = mkWorld (stores (map (out_store r batch_size (device w)) l) (host w))
              (device w)
              (dev_brk w) (next_ctx w) (protobuf_up w)
              (trace w ++ map (out_event r batch_size) l).
Proof.
  induction l as [| ip l IH]; intros w.
  - destruct w; cbn. now rewrite app_nil_r.
  - cbn [fold_left]. rewrite IH. cbn. now rewrite <- app_assoc.
Qed.

Hypothesis batch_lo : 0 <= batch_size.
Hypothesis batch_hi : Forall (fun b => batch_size <= rows b) (buffers_ r).

Lemma slice_prefix (i : nat) (w : world) :
  (i < length (buffers_ r))%nat ->
  slice (nth_buffer r i) 0 batch_size w
  = Done (mkTensor (data (nth_buffer r i)) batch_size (cols (nth_buffer r i)))
         w.
Proof.
  intros Hi. unfold slice.
  assert (Hr : batch_size <= rows (nth_buffer r i)).
  { rewrite Forall_forall in batch_hi. apply batch_hi. now apply nth_In. }
  apply Z.leb_le in Hr. rewrite Hr.
  assert (H0 : (0 <=? batch_size) = true) by now apply Z.leb_le.
  rewrite H0. cbn. unfold ret. f_equal. f_equal; lia.
Qed.

Lemma nth_error_buffer (i : nat) :
  (i < length (buffers_ r))%nat ->
  nth_error (buffers_ r) i = Some (nth_buffer r i).
Proof. intros Hi. now apply nth_error_nth'. Qed.

Lemma skipn_cons_nth {A} (l : list A) (idx : nat) :
  (idx < length l)%nat ->
  exists p, nth_error l idx = Some p /\ skipn idx l = p :: skipn (S idx) l.
Proof.
  revert idx. induction l as [| x l IH]; intros idx H; cbn in H; [lia |].
  destruct idx as [| idx].
  - exists x. now split.
  - destruct (IH idx) as [p [E1 E2]]; [lia |]. exists p. split; [exact E1 |].
    cbn [skipn]. exact E2.
Qed.

Lemma foreach_copy_input (inputs : list Z) (xs : list nat) :
  forall idx w,
    (forall i, In i xs -> (i < length (buffers_ r))%nat) ->
    (idx + length (filter (bindingIsInput (engine_ r)) xs)
     <= length inputs)%nat ->
    foreach (copy_input_from_host r inputs batch_size) xs idx w
    = Done (idx + length (filter (bindingIsInput (engine_ r)) xs))%nat
           (fold_left (copy_in_one r batch_size)
                      (combine (filter (bindingIsInput (engine_ r)) xs)
                               (skipn idx inputs)) w).
Proof.
  induction xs as [| i xs IH]; intros idx w Hin Hlen.
  - cbn. unfold ret. f_equal. lia.
  - cbn [foreach filter]. cbn [filter] in Hlen.
    unfold copy_input_from_host at 1.
    destruct (bindingIsInput (engine_ r) i) eqn:Ei.
    + cbn [length] in Hlen.
      assert (Hi : (i < length (buffers_ r))%nat) by (apply Hin; now left).
      destruct (skipn_cons_nth inputs idx) as [p [Ep Es]]; [lia |].
      rewrite Es. cbn [combine fold_left].
      unfold bind at 1.
      rewrite (bind_Done _ _ w w (nth_buffer r i))
        by (apply vec_at_Some, nth_error_buffer, Hi).
      rewrite (bind_Done _ _ w w _ (slice_prefix i w Hi)).
      rewrite (bind_Done _ _ w w p) by (apply vec_at_Some, Ep).
      cbn [data rows cols]. unfold bind, copy_to_device, ret, size.
      cbn [data rows cols].
      rewrite IH.
      * f_equal. cbn [length]. lia.
      * intros j Hj. apply Hin. now right.
      * lia.
    + unfold bind at 1. unfold ret at 1. apply IH.
      * intros j Hj. apply Hin. now right.
      * exact Hlen.
Qed.

Lemma foreach_copy_output (outputs : list Z) (xs : list nat) :
  forall idx w,
    (forall i, In i xs -> (i < length (buffers_ r))%nat) ->
    (idx + length (filter (fun i => negb (bindingIsInput (engine_ r) i)) xs)
     <= length outputs)%nat ->
    foreach (copy_output_to_host r outputs batch_size) xs idx w
    = Done (idx + length (filter (fun i => negb (bindingIsInput (engine_ r) i))
                                 xs))%nat
           (fold_left (copy_out_one r batch_size)
                      (combine (filter (fun i => negb (bindingIsInput
                                                         (engine_ r) i)) xs)
                               (skipn idx outputs)) w).
Proof.
  induction xs as [| i xs IH]; intros idx w Hin Hlen.
  - cbn. unfold ret. f_equal. lia.
  - cbn [foreach filter]. cbn [filter] in Hlen.
    unfold copy_output_to_host at 1.
    destruct (negb (bindingIsInput (engine_ r) i)) eqn:Ei.
    + cbn [length] in Hlen.
      assert (Hi : (i < length (buffers_ r))%nat) by (apply Hin; now left).
      destruct (skipn_cons_nth outputs idx) as [p [Ep Es]]; [lia |].
      rewrite Es. cbn [combine fold_left].
      unfold bind at 1.
      rewrite (bind_Done _ _ w w (nth_buffer r i))
        by (apply vec_at_Some, nth_error_buffer, Hi).
      rewrite (bind_Done _ _ w w _ (slice_prefix i w Hi)).
      rewrite (bind_Done _ _ w w p) by (apply vec_at_Some, Ep).
      cbn [data rows cols]. unfold bind, copy_to_host, ret, size.
      cbn [data rows cols].
      rewrite IH.
      * f_equal. cbn [length]. lia.
      * intros j Hj. apply Hin. now right.
      * lia.
    + unfold bind at 1. unfold ret at 1. apply IH.
      * intros j Hj. apply Hin. now right.
      * exact Hlen.
Qed.

End CopyLoops.

(** ** An invocation is the three steps *)

Lemma range_lt (n i : nat) : In i (range n) -> (i < n)%nat.
Proof. unfold range. intros H. apply in_seq in H. lia. Qed.

Lemma wf_batch_hi (r : uff_runner_impl) (batch_size : Z) :
  runner_wf r -> batch_size <= max_batch_size r ->
  Forall (fun b => batch_size <= rows b) (buffers_ r).
Proof.
  intros Hwf Hb. eapply Forall_impl; [| apply (wf_rows r Hwf)].
  cbn. intros b Hr. lia.
Qed.

Lemma context_execute_block_world (r : uff_runner_impl) (batch_size : Z)
      (w : world) :
  context_execute_block r batch_size w = Done tt (execute_step r batch_size w).
Proof.
  unfold context_execute_block, bind, createExecutionContext,
    context_execute, context_destroy, emit, execute_step, add_event,
    set_device.
  cbn. f_equal. f_equal. now rewrite <- !app_assoc.
Qed.

Lemma invoke_three_steps (r : uff_runner_impl) (inputs outputs : list Z)
      (batch_size : Z) (w : world) :
  runner_wf r ->
  call_ok r inputs outputs batch_size ->
  invoke r inputs outputs batch_size w
  = Done tt (three_steps r inputs outputs batch_size w).
Proof.
  intros Hwf [[Hlo Hhi] [Hin Hout]].
  pose proof (wf_batch_hi r batch_size Hwf Hhi) as Hrows.
  unfold invoke, three_steps.
  unfold bind at 1. unfold assert_.
  apply Z.leb_le in Hhi. rewrite Hhi.
  unfold bind at 1.
  rewrite (foreach_copy_input r batch_size Hlo Hrows inputs)
    by (try apply range_lt; exact Hin).
  unfold bind at 1. rewrite context_execute_block_world.
  unfold bind at 1.
  rewrite (foreach_copy_output r batch_size Hlo Hrows outputs)
    by (try apply range_lt; exact Hout).
  reflexivity.
Qed.

Lemma three_steps_trace (r : uff_runner_impl) (inputs outputs : list Z)
      (batch_size : Z) (w : world) :
  trace (three_steps r inputs outputs batch_size w)
  = trace w
    ++ map (in_event r batch_size) (combine (input_indices r) inputs)
    ++ [EvCreateExecutionContext (next_ctx w);
        EvExecute (next_ctx w) batch_size (map data (buffers_ r));
        EvDestroyContext (next_ctx w)]
    ++ map (out_event r batch_size) (combine (output_indices r) outputs).
Proof.
  unfold three_steps, copy_out_step, copy_in_step.
  rewrite copy_outs_world. cbn [trace]. unfold execute_step. cbn [trace].
  rewrite copy_ins_world. cbn [trace next_ctx].
  now rewrite <- !app_assoc.
Qed.

Lemma Sample_runner_wf : runner_wf Sample.runner.
Proof.
  constructor; cbn.
  - reflexivity.
  - repeat constructor.
  - repeat constructor; cbn; lia.
  - repeat constructor; cbn; lia.
Qed.

Lemma Sample_call_ok (batch_size : Z) :
  0 <= batch_size <= 4 ->
  call_ok Sample.runner [1000] [2000; 3000] batch_size.
Proof. intros H. repeat split; cbn; lia. Qed.

(** C1.  For a well-formed runner and a call within the bounds (batch size
    between 0 and the maximum, one host pointer per input and per output
    binding), [invoke] finishes, and what it has done is exactly: the
    copy-in of every input binding in binding order from the host
    pointers taken in order; then one fresh execution context, one
    execution over the pointers of all buffers in binding order with the
    given batch size, and the destruction of that context; then the
    copy-out of every output binding in binding order to the host
    pointers taken in order.  The trace shows the three groups of calls in
    this order and nothing else. *)
Theorem invoke_performs_three_steps_in_order
        (r : uff_runner_impl) (inputs outputs : list Z) (batch_size : Z)
        (w : world) :
  runner_wf r ->
  call_ok r inputs outputs batch_size ->
  invoke r inputs outputs batch_size w
  = Done tt (copy_out_step r outputs batch_size
               (execute_step r batch_size
                  (copy_in_step r inputs batch_size w)))
  /\ (forall w', invoke r inputs outputs batch_size w = Done tt w' ->
        trace w'
        = trace w
          ++ map (in_event r batch_size) (combine (input_indices r) inputs)
          ++ [EvCreateExecutionContext (next_ctx w);
              EvExecute (next_ctx w) batch_size (map data (buffers_ r));
              EvDestroyContext (next_ctx w)]
          ++ map (out_event r batch_size)
                 (combine (output_indices r) outputs)).
Proof.
  intros Hwf Hok.
  pose proof (invoke_three_steps r inputs outputs batch_size w Hwf Hok) as E.
  split; [exact E |].
  intros w' E'. rewrite E in E'. injection E' as <-.
  apply three_steps_trace.
Qed.

Lemma invoke_performs_three_steps_in_order_witness :
  runner_wf Sample.runner /\
  call_ok Sample.runner [1000] [2000; 3000] 2 /\
  forall w', invoke Sample.runner [1000] [2000; 3000] 2 Sample.world1
             = Done tt w' ->
             trace w'
             = [EvCopyHostToDevice 0 1000 96;
                EvCreateExecutionContext 0;
                EvExecute 0 2 [0; 192; 224];
                EvDestroyContext 0;
                EvCopyDeviceToHost 2000 192 16;
                EvCopyDeviceToHost 3000 224 4].
Proof.
  split; [exact Sample_runner_wf |].
  split; [apply Sample_call_ok; lia |].
  exact (proj2 (invoke_performs_three_steps_in_order
                  Sample.runner [1000] [2000; 3000] 2 Sample.world1
                  Sample_runner_wf (Sample_call_ok 2 ltac:(lia)))).
Defined.

(** C6, as stated, fails at batch size 0: the value is outside
    [0 < batchSize <= maximum] and the invocation is not rejected. *)
Lemma batch_size_zero_is_not_rejected :
  ~ (0 < 0 <= max_batch_size Sample.runner) /\
  exists w',
    invoke Sample.runner [1000] [2000; 3000] 0 Sample.world1 = Done tt w'.
Proof.
  split; [lia |].
  eexists. apply invoke_three_steps.
  - exact Sample_runner_wf.
  - apply Sample_call_ok. lia.
Qed.

(** C6, amended.  A batch size above the maximum is rejected by the
    assertion before anything else happens: the process aborts with the
    memories untouched.  [invoke] with the maximum batch size finishes.
    The lower bound is not checked: batch size 0 passes the guard and the
    invocation finishes. *)
Theorem invoke_guards_the_upper_bound_only
        (r : uff_runner_impl) (inputs outputs : list Z) (w : world) :
  (forall batch_size,
      max_batch_size r < batch_size ->
      invoke r inputs outputs batch_size w = Fatal (add_event EvAbort w))
  /\ (runner_wf r ->
      call_ok r inputs outputs (max_batch_size r) ->
      exists w', invoke r inputs outputs (max_batch_size r) w = Done tt w')
  /\ (runner_wf r ->
      call_ok r inputs outputs 0 ->
      exists w', invoke r inputs outputs 0 w = Done tt w').
Proof.
  split; [| split].
  - intros batch_size H. unfold invoke, bind at 1, assert_.
    apply Z.leb_gt in H. now rewrite H.
  - intros Hwf Hok. eexists. now apply invoke_three_steps.
  - intros Hwf Hok. eexists. now apply invoke_three_steps.
Qed.

Lemma invoke_guards_the_upper_bound_only_witness :
  invoke Sample.runner [1000] [2000; 3000] 5 Sample.world1
  = Fatal (add_event EvAbort Sample.world1)
  /\ (exists w',
         invoke Sample.runner [1000] [2000; 3000] 4 Sample.world1
         = Done tt w')
  /\ (exists w',
         invoke Sample.runner [1000] [2000; 3000] 0 Sample.world1
         = Done tt w').
Proof.
  pose proof (invoke_guards_the_upper_bound_only
                Sample.runner [1000] [2000; 3000] Sample.world1)
    as [Hhi [Hmax Hzero]].
  split; [| split].
  - apply Hhi. cbn. lia.
  - apply Hmax; [exact Sample_runner_wf | apply (Sample_call_ok 4); lia].
  - apply Hzero; [exact Sample_runner_wf | apply Sample_call_ok; lia].
Defined.

(** ** 64-bit arithmetic *)

Section Arith64.

Lemma int64_congr (a b : Z) :
  a mod 2 ^ 64 = b mod 2 ^ 64 -> MachineInt.int64 a = MachineInt.int64 b.
Proof.
  intros H. unfold MachineInt.int64.
  rewrite <- (Zplus_mod_idemp_l a), <- (Zplus_mod_idemp_l b), H.
  reflexivity.
Qed.

Lemma int64_mod (a : Z) : MachineInt.int64 a mod 2 ^ 64 = a mod 2 ^ 64.
Proof.
  unfold MachineInt.int64.
  rewrite Zminus_mod_idemp_l. f_equal. lia.
Qed.

Lemma int64_mul_l (a b : Z) :
  MachineInt.int64 (MachineInt.int64 a * b) = MachineInt.int64 (a * b).
Proof.
  apply int64_congr.
  rewrite <- Zmult_mod_idemp_l, int64_mod, Zmult_mod_idemp_l. reflexivity.
Qed.

Lemma int64_small (a : Z) :
  - 2 ^ 63 <= a < 2 ^ 63 -> MachineInt.int64 a = a.
Proof.
  intros H. unfold MachineInt.int64. rewrite Z.mod_small; lia.
Qed.

Lemma volume_loop_product (g : nat -> Z) (l : list nat) :
  forall v,
    fold_left (fun v i => MachineInt.int64 (v * g i)) l (MachineInt.int64 v)
    = MachineInt.int64 (v * product (map g l)).
Proof.
  induction l as [| i l IH]; intros v.
  - cbn [fold_left map product fold_right]. f_equal. lia.
  - cbn [fold_left map]. rewrite int64_mul_l, IH.
    change (product (g i :: map g l)) with (g i * product (map g l)).
    f_equal. lia.
Qed.

Lemma volume_is_wrapped_product (dm : Dims) :
  volume dm = MachineInt.int64 (product (shape dm)).
Proof.
  unfold volume, shape.
  change 1 with (MachineInt.int64 1) at 1.
  rewrite volume_loop_product. f_equal. lia.
Qed.

Lemma size_t_volume (dm : Dims) (es : Z) :
  0 <= product (shape dm) * es < 2 ^ 64 ->
  MachineInt.size_t (volume dm * es) = product (shape dm) * es.
Proof.
  intros H. unfold MachineInt.size_t.
  rewrite volume_is_wrapped_product.
  rewrite <- Zmult_mod_idemp_l, int64_mod, Zmult_mod_idemp_l.
  now apply Z.mod_small.
Qed.

Lemma size_t_nonneg (z : Z) : 0 <= MachineInt.size_t z.
Proof. unfold MachineInt.size_t. apply Z.mod_pos_bound. lia. Qed.


End Arith64.

(** ** The engine builder *)

Section EngineBuilder.

Variable bk : Backend.
Variable model_file : string.
Variable input_info : input_info_t.
Variable output_names : list string.
Variable max_batch : Z.
Variable dtype : DataType.

Lemma register_inputs_loop (infos : input_info_t) :
  forall parser w,
    Forall (fun info : string * list Z => (3 <= length (snd info))%nat)
           infos ->
    foreach
      (fun (info : string * list Z) parser =>
         let dims := snd info in
         c <- vec_at dims 0 ;;
         h <- vec_at dims 1 ;;
         w <- vec_at dims 2 ;;
         ret (registerInput (fst info) (mkDimsCHW c h w) kNCHW parser))
      infos parser w
    = Done (mkParser (registered_inputs parser
                        ++ registered_inputs (registered_parser infos []))
                     (registered_outputs parser)) w.
Proof.
  induction infos as [| info infos IH]; intros parser w H.
  - cbn. rewrite app_nil_r. now destruct parser.
  - inversion H as [| ? ? H3 Hrest]; subst.
    cbn [foreach]. unfold bind at 1.
    destruct info as [name dims]. cbn [fst snd] in *.
    destruct dims as [| c [| h [| w0 dims]]]; cbn in H3; try lia.
    cbn. rewrite IH by exact Hrest. cbn. now rewrite <- app_assoc.
Qed.

Lemma register_outputs_loop (names : list string) :
  forall parser w,
    foreach (fun name parser => ret (registerOutput name parser)) names
            parser w
    = Done (mkParser (registered_inputs parser)
                     (registered_outputs parser ++ names)) w.
Proof.
  induction names as [| name names IH]; intros parser w.
  - cbn. rewrite app_nil_r. now destruct parser.
  - cbn [foreach]. unfold bind at 1, ret at 1. rewrite IH. cbn.
    now rewrite <- app_assoc.
Qed.

Hypothesis three_dims :
  Forall (fun info : string * list Z => (3 <= length (snd info))%nat)
         input_info.

(** What [create_engine] does, by the answers of the backend. *)
Lemma create_engine_cases (w : world) :
  create_engine bk model_file input_info output_names max_batch dtype w
  = match parse bk (protobuf_up w) model_file
                (registered_parser input_info output_names) dtype with
    | None =>
        Fatal (add_event (EvExit 1)
                 (add_event (EvLogError "Failed to created engine")
                    (add_event
                       (EvLogError ("Failed to created engine of data type: "
                                      ++ DataType_to_string dtype)%string)
                       w)))
    | Some network =>
        match buildCudaEngine bk max_batch network with
        | None =>
            Fatal (add_event (EvExit 1)
                     (add_event (EvLogError "Failed to created engine") w))
        | Some e => Done e w
        end
    end.
Proof.
  unfold create_engine.
  unfold bind at 1. rewrite register_inputs_loop by exact three_dims.
  unfold bind at 1. rewrite register_outputs_loop.
  cbn [registered_inputs registered_outputs createUffParser app].
  change (mkParser (registered_inputs (registered_parser input_info []))
                   output_names)
    with (registered_parser input_info output_names).
  unfold bind at 1. unfold loadModelAndCreateEngine.
  unfold bind at 1. unfold protobuf_state.
  destruct (parse bk (protobuf_up w) model_file
                  (registered_parser input_info output_names) dtype)
    as [net |].
  - unfold ret at 1.
    destruct (buildCudaEngine bk max_batch net) as [e |]; reflexivity.
  - reflexivity.
Qed.

End EngineBuilder.

(** ** createBuffers_ *)

Section CreateBuffers.

Variable engine : ICudaEngine.
Variable batch_size : Z.

Lemma createBuffers_body_supported (i : nat) (bufs : list tensor)
      (w : world) (es : Z) :
  spec_elementByteSize (getBindingDataType engine i) = Some es ->
  0 <= batch_size ->
  createBuffers_body engine batch_size i bufs w
  = Done (bufs ++ [buffer_for engine batch_size i es (dev_brk w)])
         (mkWorld (host w) (device w)
                  (dev_brk w
                   + size (buffer_for engine batch_size i es (dev_brk w)))
                  (next_ctx w) (protobuf_up w)
                  (trace w
                   ++ [EvStdout (binding_line engine i);
                       EvCudaMalloc
                         (dev_brk w)
                         (size (buffer_for engine batch_size i es
                                           (dev_brk w)))])).
Proof.
  intros Hes Hlo.
  unfold createBuffers_body, buffer_for, size. cbn [data rows cols].
  unfold bind at 1. unfold emit at 1.
  fold (binding_line engine i).
  assert (Hc : forall z, (0 <=? batch_size) && (0 <=? MachineInt.size_t z)
                         = true).
  { intros z. apply andb_true_iff. split; apply Z.leb_le;
      [exact Hlo | apply size_t_nonneg]. }
  destruct (getBindingDataType engine i); cbn in Hes; inversion Hes; subst;
    unfold bind at 1; unfold elementSize, ret at 1;
    unfold bind at 1; unfold new_cuda_tensor; rewrite Hc;
    unfold bind, cudaMalloc, ret, add_event; cbn;
    now rewrite <- app_assoc.
Qed.

Lemma createBuffers_body_unsupported (i : nat) (bufs : list tensor)
      (w : world) :
  spec_elementByteSize (getBindingDataType engine i) = None ->
  createBuffers_body engine batch_size i bufs w
  = Fatal (add_event EvAbort (add_event (EvStdout (binding_line engine i)) w)).
Proof.
  intros Hes. unfold createBuffers_body.
  fold (binding_line engine i).
  destruct (getBindingDataType engine i); cbn in Hes; try discriminate.
  reflexivity.
Qed.

Lemma createBuffers_body_negative (i : nat) (bufs : list tensor)
      (w : world) (es : Z) :
  spec_elementByteSize (getBindingDataType engine i) = Some es ->
  batch_size < 0 ->
  createBuffers_body engine batch_size i bufs w = Undef.
Proof.
  intros Hes Hlo. apply Z.leb_gt in Hlo.
  unfold createBuffers_body.
  destruct (getBindingDataType engine i); cbn in Hes; try discriminate;
    unfold bind, emit, elementSize, ret, new_cuda_tensor; now rewrite Hlo.
Qed.

Lemma createBuffers_loop_Done (xs : list nat) :
  forall bufs w bufs' w',
    foreach (createBuffers_body engine batch_size) xs bufs w = Done bufs' w' ->
    exists new evs,
      bufs' = bufs ++ new /\
      Forall2 (made_for engine batch_size) xs new /\
      laid_out (dev_brk w) new /\
      host w' = host w /\ device w' = device w /\
      next_ctx w' = next_ctx w /\ protobuf_up w' = protobuf_up w /\
      dev_brk w' = dev_brk w + total_size new /\
      trace w' = trace w ++ evs /\
      allocations evs = map (fun b => EvCudaMalloc (data b) (size b)) new.
Proof.
  induction xs as [| i xs IH]; intros bufs w bufs' w' H.
  - cbn in H. injection H as <- <-. exists [], [].
    rewrite !app_nil_r. cbn. repeat split; try reflexivity; try lia.
    constructor.
  - cbn [foreach] in H. unfold bind at 1 in H.
    destruct (spec_elementByteSize (getBindingDataType engine i)) as [es |]
      eqn:Hes.
    + destruct (Z.le_gt_cases 0 batch_size) as [Hlo | Hlo].
      * rewrite (createBuffers_body_supported i bufs w es Hes Hlo) in H.
        apply IH in H.
        destruct H as (new & evs & E & HF & Hlay & Hh & Hd & Hc & Hp & Hb
                       & Ht & Ha).
        cbn [host device dev_brk next_ctx protobuf_up trace] in *.
        set (b := buffer_for engine batch_size i es (dev_brk w)) in *.
        exists (b :: new),
          ([EvStdout (binding_line engine i);
            EvCudaMalloc (dev_brk w) (size b)] ++ evs).
        repeat split; try assumption.
        -- rewrite E, <- app_assoc. reflexivity.
        -- constructor; [| exact HF]. exists es. now repeat split.
        -- cbn [total_size fold_right]. fold (total_size new). lia.
        -- rewrite Ht, <- app_assoc. reflexivity.
        -- unfold allocations in *. cbn. now rewrite Ha.
      * now rewrite (createBuffers_body_negative i bufs w es Hes Hlo) in H.
    + now rewrite (createBuffers_body_unsupported i bufs w Hes) in H.
Qed.


End CreateBuffers.

(** ** The constructor *)

Lemma register_inputs_world (infos : input_info_t) :
  forall parser w parser' w',
    foreach
      (fun (info : string * list Z) parser =>
         let dims := snd info in
         c <- vec_at dims 0 ;;
         h <- vec_at dims 1 ;;
         w <- vec_at dims 2 ;;
         ret (registerInput (fst info) (mkDimsCHW c h w) kNCHW parser))
      infos parser w
    = Done parser' w' ->
    w' = w.
Proof.
  induction infos as [| [name dims] infos IH]; intros parser w parser' w' H.
  - cbn in H. now injection H.
  - cbn [foreach] in H. unfold bind at 1 in H. cbn [fst snd] in H.
    destruct dims as [| c [| h [| w0 dims]]]; cbn in H; try discriminate.
    now apply IH in H.
Qed.

Lemma create_engine_world (bk : Backend) (model_file : string)
      (input_info : input_info_t) (output_names : list string)
      (max_batch : Z) (dtype : DataType) (w : world) (e : ICudaEngine)
      (w' : world) :
  create_engine bk model_file input_info output_names max_batch dtype w
  = Done e w' ->
  w' = w.
Proof.
  unfold create_engine. unfold bind at 1.
  destruct (foreach _ input_info createUffParser w) as [p1 w1 | |] eqn:E1;
    try discriminate.
  apply register_inputs_world in E1. subst w1.
  unfold bind at 1. rewrite register_outputs_loop.
  unfold bind at 1, loadModelAndCreateEngine, bind at 1, protobuf_state.
  destruct (parse bk (protobuf_up w) model_file _ dtype) as [net |].
  - unfold ret at 1.
    destruct (buildCudaEngine bk max_batch net); cbn; [| discriminate].
    intros H. now injection H.
  - cbn. discriminate.
Qed.

Section Constructor.

Variable bk : Backend.
Variable model_file : string.
Variable input_info : input_info_t.
Variable output_names : list string.
Variable max_batch : Z.
Variable dtype : DataType.
Variable w : world.
Variable r : uff_runner_impl.
Variable w' : world.

Hypothesis constructed :
  new_uff_runner_impl bk model_file input_info output_names max_batch dtype w
  = Done r w'.

Lemma constructed_parts :
  max_batch_size r = max_batch /\
  create_engine bk model_file input_info output_names max_batch dtype w
  = Done (engine_ r) w /\
  createBuffers_ (engine_ r) max_batch [] w = Done (buffers_ r) w'.
Proof.
  unfold new_uff_runner_impl in constructed.
  unfold bind at 1 in constructed.
  destruct (create_engine bk model_file input_info output_names max_batch
                          dtype w) as [e w1 | |] eqn:E1; try discriminate.
  pose proof (create_engine_world _ _ _ _ _ _ _ _ _ E1). subst w1.
  unfold bind at 1 in constructed.
  destruct (createBuffers_ e max_batch [] w) as [bufs w2 | |] eqn:E2;
    try discriminate.
  unfold ret in constructed. injection constructed as <- <-.
  cbn. now repeat split.
Qed.

Lemma constructed_buffers :
  exists evs,
    Forall2 (made_for (engine_ r) max_batch)
            (range (getNbBindings (engine_ r))) (buffers_ r) /\
    laid_out (dev_brk w) (buffers_ r) /\
    host w' = host w /\ device w' = device w /\
    next_ctx w' = next_ctx w /\ protobuf_up w' = protobuf_up w /\
    dev_brk w' = dev_brk w + total_size (buffers_ r) /\
    trace w' = trace w ++ evs /\
    allocations evs
    = map (fun b => EvCudaMalloc (data b) (size b)) (buffers_ r).
Proof.
  destruct constructed_parts as (_ & _ & H).
  apply createBuffers_loop_Done in H.
  destruct H as (new & evs & E & H). cbn [app] in E. subst new.
  exists evs. exact H.
Qed.

End Constructor.

Lemma laid_out_above (l : list tensor) :
  forall p, Forall (fun b => 0 <= size b) l -> laid_out p l ->
            Forall (fun b => p <= data b) l.
Proof.
  induction l as [| b l IH]; intros p Hs Hl; constructor.
  - destruct Hl as [E _]. lia.
  - inversion Hs as [| ? ? Hb Hrest]; subst. destruct Hl as [E Hl].
    eapply Forall_impl; [| apply (IH _ Hrest Hl)]. cbn. intros b' Hb'. lia.
Qed.

Lemma laid_out_apart (l : list tensor) :
  forall p, Forall (fun b => 0 <= size b) l -> laid_out p l ->
            ForallOrdPairs (fun b1 b2 => data b1 + size b1 <= data b2) l.
Proof.
  induction l as [| b l IH]; intros p Hs Hl; constructor.
  - inversion Hs as [| ? ? Hb Hrest]; subst. destruct Hl as [E Hl].
    rewrite E. now apply laid_out_above.
  - inversion Hs as [| ? ? Hb Hrest]; subst. destruct Hl as [E Hl].
    now apply (IH _ Hrest Hl).
Qed.

Lemma Forall2_right {A B} (P : A -> B -> Prop) (Q : B -> Prop)
      (l1 : list A) (l2 : list B) :
  (forall a b, P a b -> Q b) -> Forall2 P l1 l2 -> Forall Q l2.
Proof. intros H. induction 1; constructor; eauto. Qed.

Lemma Forall2_nth_error_l {A B} (P : A -> B -> Prop) (l1 : list A)
      (l2 : list B) :
  Forall2 P l1 l2 ->
  forall i a, nth_error l1 i = Some a ->
              exists b, nth_error l2 i = Some b /\ P a b.
Proof.
  induction 1 as [| x y l1 l2 Hxy _ IH]; intros i a Hi.
  - destruct i; discriminate.
  - destruct i as [| i]; cbn in *.
    + injection Hi as <-. now exists y.
    + now apply IH.
Qed.

(** Construction establishes the well-formedness that the invocations
    rely on. *)
Lemma constructed_runner_wf (bk : Backend) (model_file : string)
      (input_info : input_info_t) (output_names : list string)
      (max_batch : Z) (dtype : DataType) (w : world) (r : uff_runner_impl)
      (w' : world) :
  new_uff_runner_impl bk model_file input_info output_names max_batch dtype w
  = Done r w' ->
  runner_wf r.
Proof.
  intros H.
  destruct (constructed_parts _ _ _ _ _ _ _ _ _ H) as (Hmax & _ & _).
  destruct (constructed_buffers _ _ _ _ _ _ _ _ _ H)
    as (evs & HF & Hlay & _).
  assert (Hsize : Forall (fun b => 0 <= size b) (buffers_ r)).
  { eapply Forall2_right; [| exact HF].
    intros i b (es & _ & Hr & Hc & Hlo). unfold size.
    rewrite Hr, Hc. apply Z.mul_nonneg_nonneg; [exact Hlo |].
    apply size_t_nonneg. }
  constructor.
  - apply Forall2_length in HF. unfold range in HF.
    rewrite length_seq in HF. now symmetry.
  - eapply Forall2_right; [| exact HF].
    intros i b (es & _ & Hr & _). now rewrite Hmax.
  - eapply Forall2_right; [| exact HF].
    intros i b (es & _ & _ & Hc & _). rewrite Hc. apply size_t_nonneg.
  - eapply laid_out_apart; eassumption.
Qed.

Lemma Sample_constructed :
  new_uff_runner_impl Sample.backend "model.uff" Sample.input_info
                      Sample.output_names 4 kFLOAT Sample.world0
  = Done Sample.runner Sample.world_built.
Proof. reflexivity. Qed.

Lemma Sample_three_dims :
  Forall (fun info : string * list Z => (3 <= length (snd info))%nat)
         Sample.input_info.
Proof. repeat constructor. Qed.

(** ** Failure of the engine builder *)

(** C2, as stated, fails when the model parses and the builder then
    returns no engine: the process exits with status 1, and nothing that
    was logged names the requested precision. *)
Lemma build_failure_does_not_name_the_precision :
  (forall net, buildCudaEngine Sample.backend_no_build 4 net = None) /\
  exists w',
    new_uff_runner_impl Sample.backend_no_build "model.uff" Sample.input_info
                        Sample.output_names 4 kHALF Sample.world0
    = Fatal w' /\
    trace w' = [EvLogError "Failed to created engine"; EvExit 1] /\
    ~ In (EvLogError ("Failed to created engine of data type: "
                        ++ DataType_to_string kHALF)%string)
         (trace w').
Proof.
  split; [reflexivity |].
  eexists. split; [reflexivity |]. split; [reflexivity |].
  cbn. intros [H | [H | []]]; discriminate.
Qed.

(** C2, amended.  Whenever the backend yields no engine (the model does
    not parse, or it parses and the builder returns none), construction
    ends in the termination of the process: the last things it does are to
    log "Failed to created engine" and to exit with status 1.  No runner
    is returned, and no device buffer has been allocated.  When the
    failure is that the model does not parse, the diagnostic that names
    the requested precision is logged just before. *)
Theorem engine_failure_terminates_the_process
        (bk : Backend) (model_file : string) (input_info : input_info_t)
        (output_names : list string) (max_batch : Z) (dtype : DataType)
        (w : world) :
  Forall (fun info : string * list Z => (3 <= length (snd info))%nat)
         input_info ->
  (parse bk (protobuf_up w) model_file
         (registered_parser input_info output_names) dtype = None
   \/ exists net,
       parse bk (protobuf_up w) model_file
             (registered_parser input_info output_names) dtype = Some net /\
       buildCudaEngine bk max_batch net = None) ->
  exists w' evs,
    new_uff_runner_impl bk model_file input_info output_names max_batch
                        dtype w
    = Fatal w' /\
    trace w'
    = trace w ++ evs ++ [EvLogError "Failed to created engine"; EvExit 1] /\
    allocations evs = [] /\
    dev_brk w' = dev_brk w /\
    (parse bk (protobuf_up w) model_file
           (registered_parser input_info output_names) dtype = None ->
     evs = [EvLogError ("Failed to created engine of data type: "
                          ++ DataType_to_string dtype)%string]).
Proof.
  intros H3 Hfail.
  unfold new_uff_runner_impl, bind at 1.
  rewrite create_engine_cases by exact H3.
  destruct Hfail as [Hp | (net & Hp & Hb)].
  - rewrite Hp. eexists.
    exists [EvLogError ("Failed to created engine of data type: "
                          ++ DataType_to_string dtype)%string].
    split; [reflexivity |]. cbn. rewrite <- !app_assoc.
    repeat split; reflexivity.
  - rewrite Hp, Hb. eexists. exists [].
    split; [reflexivity |]. cbn. rewrite <- !app_assoc.
    repeat split; try reflexivity. intros H. discriminate.
Qed.

Lemma engine_failure_terminates_the_process_witness :
  exists w' evs,
    new_uff_runner_impl Sample.backend_no_parse "model.uff" Sample.input_info
                        Sample.output_names 4 kHALF Sample.world0
    = Fatal w' /\
    trace w'
    = trace Sample.world0 ++ evs
      ++ [EvLogError "Failed to created engine"; EvExit 1] /\
    allocations evs = [] /\
    dev_brk w' = dev_brk Sample.world0 /\
    (parse Sample.backend_no_parse (protobuf_up Sample.world0) "model.uff"
           (registered_parser Sample.input_info Sample.output_names) kHALF
     = None ->
     evs = [EvLogError "Failed to created engine of data type: 1"]).
Proof.
  apply (engine_failure_terminates_the_process
           Sample.backend_no_parse "model.uff" Sample.input_info
           Sample.output_names 4 kHALF Sample.world0).
  - exact Sample_three_dims.
  - left. reflexivity.
Defined.

(** ** The bindings of a constructed runner *)

Lemma spec_elementByteSize_values (t : DataType) (es : Z) :
  spec_elementByteSize t = Some es -> es = 1 \/ es = 2 \/ es = 4.
Proof. destruct t; cbn; intros H; inversion H; auto. Qed.


Lemma nth_error_range (n i : nat) :
  (i < n)%nat -> nth_error (range n) i = Some i.
Proof.
  intros H. unfold range.
  rewrite (nth_error_nth' _ 0%nat) by now rewrite length_seq.
  now rewrite seq_nth.
Qed.

Lemma binding_at (e : ICudaEngine) (i : nat) (b : Binding) :
  nth_error (bindings e) i = Some b ->
  (i < getNbBindings e)%nat /\ getBinding e i = b.
Proof.
  intros H. split.
  - apply nth_error_Some. unfold getNbBindings. congruence.
  - unfold getBinding. now apply nth_error_nth.
Qed.

Lemma constructed_buffer_at (bk : Backend) (model_file : string)
      (input_info : input_info_t) (output_names : list string)
      (max_batch : Z) (dtype : DataType) (w : world) (r : uff_runner_impl)
      (w' : world) (i : nat) (b : Binding) :
  new_uff_runner_impl bk model_file input_info output_names max_batch dtype w
  = Done r w' ->
  nth_error (bindings (engine_ r)) i = Some b ->
  exists buf es,
    nth_error (buffers_ r) i = Some buf /\
    spec_elementByteSize (binding_dtype b) = Some es /\
    rows buf = max_batch /\
    cols buf = MachineInt.size_t (volume (binding_dims b) * es).
Proof.
  intros H Hb.
  destruct (constructed_buffers _ _ _ _ _ _ _ _ _ H) as (evs & HF & _).
  destruct (binding_at _ _ _ Hb) as [Hi Hg].
  destruct (Forall2_nth_error_l _ _ _ HF i i (nth_error_range _ _ Hi))
    as (buf & Hbuf & es & Hes & Hr & Hc & _).
  unfold getBindingDataType, getBindingDimensions in *. rewrite Hg in *.
  exists buf, es. now repeat split.
Qed.




(** C4.  Construction makes exactly one device buffer per binding of the
    compiled engine, in binding order, each by one request to the device
    allocator and with no other request; the buffer of a binding has
    [maximum_batch_size] rows of [volume x elementByteSize] bytes, hence a
    capacity of [maximum_batch_size x volume x elementByteSize] bytes,
    where the volume is the product of the extents of the binding's shape
    (taken to be in the range where the sizes fit the 64-bit arithmetic
    of the code). *)
Theorem construction_allocates_one_buffer_per_binding
        (bk : Backend) (model_file : string) (input_info : input_info_t)
        (output_names : list string) (max_batch : Z) (dtype : DataType)
        (w : world) (r : uff_runner_impl) (w' : world) :
  new_uff_runner_impl bk model_file input_info output_names max_batch dtype w
  = Done r w' ->
  (forall b, In b (bindings (engine_ r)) -> 0 <= spec_volume b < 2 ^ 62) ->
  length (buffers_ r) = length (bindings (engine_ r))
  /\ (forall i b,
         nth_error (bindings (engine_ r)) i = Some b ->
         exists buf es,
           nth_error (buffers_ r) i = Some buf /\
           spec_elementByteSize (binding_dtype b) = Some es /\
           rows buf = max_batch /\
           cols buf = spec_volume b * es /\
           size buf = max_batch * spec_volume b * es)
  /\ exists evs,
      trace w' = trace w ++ evs /\
      allocations evs
      = map (fun buf => EvCudaMalloc (data buf) (size buf)) (buffers_ r).
Proof.
  intros H Hfit. split; [| split].
  - apply (wf_count r). eapply constructed_runner_wf. exact H.
  - intros i b Hb.
    destruct (constructed_buffer_at _ _ _ _ _ _ _ _ _ i b H Hb)
      as (buf & es & Hbuf & Hes & Hr & Hc).
    assert (Hc' : cols buf = spec_volume b * es).
    { rewrite Hc. unfold spec_volume. apply size_t_volume.
      pose proof (Hfit b (nth_error_In _ _ Hb)) as Hv.
      unfold spec_volume in Hv.
      destruct (spec_elementByteSize_values _ _ Hes) as [-> | [-> | ->]];
        lia. }
    exists buf, es. repeat split; try assumption.
    unfold size. rewrite Hr, Hc'. ring.
  - destruct (constructed_buffers _ _ _ _ _ _ _ _ _ H)
      as (evs & _ & _ & _ & _ & _ & _ & _ & Ht & Ha).
    now exists evs.
Qed.

Lemma construction_allocates_one_buffer_per_binding_witness :
  length (buffers_ Sample.runner) = 3%nat
  /\ (exists buf es,
         nth_error (buffers_ Sample.runner) 0 = Some buf /\
         spec_elementByteSize kFLOAT = Some es /\
         rows buf = 4 /\ cols buf = 12 * es /\ size buf = 4 * 12 * es)
  /\ exists evs,
      trace Sample.world_built = trace Sample.world0 ++ evs /\
      allocations evs
      = [EvCudaMalloc 0 192; EvCudaMalloc 192 32; EvCudaMalloc 224 8].
Proof.
  destruct (construction_allocates_one_buffer_per_binding
              Sample.backend "model.uff" Sample.input_info
              Sample.output_names 4 kFLOAT Sample.world0
              Sample.runner Sample.world_built Sample_constructed)
    as (Hlen & Hbuf & Hev).
  - intros b [<- | [<- | [<- | []]]]; vm_compute;
      (split; [intro; discriminate | reflexivity]).
  - split; [exact Hlen |]. split; [| exact Hev].
    exact (Hbuf 0%nat Sample.image eq_refl).
Defined.

(** ** The destructor *)

Lemma free_buffers_loop (bufs : list tensor) :
  forall w,
    foreach (fun b (_ : unit) => cudaFree (data b)) bufs tt w
    = Done tt (mkWorld (host w) (device w) (dev_brk w) (next_ctx w)
                       (protobuf_up w)
                       (trace w ++ map (fun b => EvCudaFree (data b)) bufs)).
Proof.
  induction bufs as [| b bufs IH]; intros w.
  - cbn. rewrite app_nil_r. now destruct w.
  - cbn [foreach]. unfold bind at 1, cudaFree, emit. rewrite IH.
    cbn. now rewrite <- app_assoc.
Qed.

(** C10.  Destroying any runner, in any state of the process, finishes
    and leaves the process-wide protobuf library shut down; besides this
    it only releases the runner's own buffers and engine.  The effect
    reaches every later construction in the process: it finds the library
    down, and with a backend whose parser cannot work on a library that is
    down, it ends in the termination of the process. *)
Theorem destroying_a_runner_shuts_protobuf_down
        (r : uff_runner_impl) (w : world) :
  exists w',
    delete_uff_runner_impl r w = Done tt w' /\
    protobuf_up w' = false /\
    trace w'
    = trace w ++ [EvShutdownProtobufLibrary]
      ++ map (fun b => EvCudaFree (data b)) (buffers_ r)
      ++ [EvDestroyEngine] /\
    forall bk model_file input_info output_names max_batch dtype,
      Forall (fun info : string * list Z => (3 <= length (snd info))%nat)
             input_info ->
      parse bk false model_file
            (registered_parser input_info output_names) dtype = None ->
      exists w'',
        new_uff_runner_impl bk model_file input_info output_names max_batch
                            dtype w'
        = Fatal w''.
Proof.
  eexists. split; [| split; [| split]].
  - unfold delete_uff_runner_impl, bind at 1, shutdownProtobufLibrary.
    unfold bind at 1. rewrite free_buffers_loop. reflexivity.
  - reflexivity.
  - cbn. now rewrite <- !app_assoc.
  - intros bk model_file input_info output_names max_batch dtype H3 Hp.
    unfold new_uff_runner_impl, bind at 1.
    rewrite create_engine_cases by exact H3.
    cbn [protobuf_up add_event]. rewrite Hp. eexists. reflexivity.
Qed.

Lemma destroying_a_runner_shuts_protobuf_down_witness :
  exists w',
    delete_uff_runner_impl Sample.runner Sample.world_built = Done tt w' /\
    protobuf_up w' = false /\
    trace w'
    = trace Sample.world_built
      ++ [EvShutdownProtobufLibrary; EvCudaFree 0; EvCudaFree 192;
          EvCudaFree 224; EvDestroyEngine] /\
    exists w'',
      new_uff_runner_impl Sample.backend_on_protobuf "model.uff"
                          Sample.input_info Sample.output_names 4 kFLOAT w'
      = Fatal w''.
Proof.
  destruct (destroying_a_runner_shuts_protobuf_down
              Sample.runner Sample.world_built)
    as (w' & Hrun & Hpb & Htr & Hlater).
  exists w'. repeat split; try assumption.
  apply Hlater; [exact Sample_three_dims | reflexivity].
Defined.

(** ** What an invocation leaves in place *)

Section InvocationFacts.

Variable r : uff_runner_impl.
Variable inputs outputs : list Z.
Variable batch_size : Z.

Lemma three_steps_trace_events (w : world) :
  trace (three_steps r inputs outputs batch_size w)
  = trace w ++ invocation_events r inputs outputs batch_size (next_ctx w).
Proof. apply three_steps_trace. Qed.

Lemma three_steps_dev_brk (w : world) :
  dev_brk (three_steps r inputs outputs batch_size w) = dev_brk w.
Proof.
  unfold three_steps, copy_out_step, copy_in_step.
  rewrite copy_outs_world. cbn. now rewrite copy_ins_world.
Qed.

Lemma three_steps_protobuf (w : world) :
  protobuf_up (three_steps r inputs outputs batch_size w) = protobuf_up w.
Proof.
  unfold three_steps, copy_out_step, copy_in_step.
  rewrite copy_outs_world. cbn. now rewrite copy_ins_world.
Qed.

Lemma three_steps_device (w : world) :
  device (three_steps r inputs outputs batch_size w)
  = execute (engine_ r) batch_size (map data (buffers_ r))
            (stores (map (in_store r batch_size (host w))
                         (combine (input_indices r) inputs))
                    (device w)).
Proof.
  unfold three_steps, copy_out_step, copy_in_step.
  rewrite copy_outs_world. cbn. now rewrite copy_ins_world.
Qed.

Lemma three_steps_host (w : world) :
  host (three_steps r inputs outputs batch_size w)
  = stores (map (out_store r batch_size
                           (device (three_steps r inputs outputs batch_size
                                                w)))
                (combine (output_indices r) outputs))
           (host w).
Proof.
  rewrite three_steps_device.
  unfold three_steps, copy_out_step, copy_in_step.
  rewrite copy_outs_world. cbn. now rewrite copy_ins_world.
Qed.

Lemma input_index_buffer (i : nat) (p : Z) :
  In (i, p) (combine (input_indices r) inputs) ->
  In (nth_buffer r i) (buffers_ r).
Proof.
  intros H. apply in_combine_l in H. unfold input_indices in H.
  apply filter_In in H. destruct H as [H _]. apply range_lt in H.
  now apply nth_In.
Qed.

Lemma output_index_buffer (i : nat) (p : Z) :
  In (i, p) (combine (output_indices r) outputs) ->
  In (nth_buffer r i) (buffers_ r).
Proof.
  intros H. apply in_combine_l in H. unfold output_indices in H.
  apply filter_In in H. destruct H as [H _]. apply range_lt in H.
  now apply nth_In.
Qed.

Lemma allocations_in_events (l : list (nat * Z)) :
  allocations (map (in_event r batch_size) l) = [].
Proof. induction l; [reflexivity | exact IHl]. Qed.

Lemma allocations_out_events (l : list (nat * Z)) :
  allocations (map (out_event r batch_size) l) = [].
Proof. induction l; [reflexivity | exact IHl]. Qed.

Lemma executed_in_events (l : list (nat * Z)) :
  executed_ptrs (map (in_event r batch_size) l) = [].
Proof. induction l; [reflexivity | exact IHl]. Qed.

Lemma executed_out_events (l : list (nat * Z)) :
  executed_ptrs (map (out_event r batch_size) l) = [].
Proof. induction l; [reflexivity | exact IHl]. Qed.

Lemma invocation_allocates_nothing (c : nat) :
  allocations (invocation_events r inputs outputs batch_size c) = [].
Proof.
  unfold invocation_events, allocations. rewrite !filter_app.
  fold (allocations (map (in_event r batch_size)
                         (combine (input_indices r) inputs))).
  fold (allocations (map (out_event r batch_size)
                         (combine (output_indices r) outputs))).
  now rewrite allocations_in_events, allocations_out_events.
Qed.

Lemma invocation_executes_once (c : nat) :
  executed_ptrs (invocation_events r inputs outputs batch_size c)
  = [map data (buffers_ r)].
Proof.
  unfold invocation_events, executed_ptrs. rewrite !flat_map_app.
  fold (executed_ptrs (map (in_event r batch_size)
                           (combine (input_indices r) inputs))).
  fold (executed_ptrs (map (out_event r batch_size)
                           (combine (output_indices r) outputs))).
  now rewrite executed_in_events, executed_out_events.
Qed.

Lemma invocation_copies_on_buffers (c : nat) :
  Forall (fun p => In p (map data (buffers_ r)))
         (copied_device_ptrs
            (invocation_events r inputs outputs batch_size c)).
Proof.
  unfold invocation_events, copied_device_ptrs. rewrite !flat_map_app.
  apply Forall_app. split; [| apply Forall_app; split].
  - apply Forall_forall. intros p Hp. apply in_flat_map in Hp.
    destruct Hp as (e & He & Hp). apply in_map_iff in He.
    destruct He as ([i q] & <- & Hiq). cbn in Hp. destruct Hp as [<- | []].
    apply in_map. eapply input_index_buffer. exact Hiq.
  - cbn. constructor.
  - apply Forall_forall. intros p Hp. apply in_flat_map in Hp.
    destruct Hp as (e & He & Hp). apply in_map_iff in He.
    destruct He as ([i q] & <- & Hiq). cbn in Hp. destruct Hp as [<- | []].
    apply in_map. eapply output_index_buffer. exact Hiq.
Qed.

End InvocationFacts.

Lemma invoke_calls_stable (r : uff_runner_impl) (calls : list call) :
  runner_wf r ->
  Forall (fun c => call_ok r (call_inputs c) (call_outputs c) (call_batch c))
         calls ->
  forall w,
  exists w' evs,
    invoke_calls r calls w = Done tt w' /\
    trace w' = trace w ++ evs /\
    allocations evs = [] /\
    dev_brk w' = dev_brk w /\
    executed_ptrs evs = repeat (map data (buffers_ r)) (length calls) /\
    Forall (fun p => In p (map data (buffers_ r))) (copied_device_ptrs evs).
Proof.
  intros Hwf. induction calls as [| c calls IH]; intros Hok w.
  - exists w, []. cbn. rewrite app_nil_r. repeat split. constructor.
  - inversion Hok as [| ? ? Hc Hrest]; subst.
    unfold invoke_calls. cbn [foreach]. unfold bind at 1.
    rewrite (invoke_three_steps r _ _ _ w Hwf Hc).
    fold (invoke_calls r calls).
    set (w1 := three_steps r (call_inputs c) (call_outputs c) (call_batch c)
                           w).
    destruct (IH Hrest w1) as (w' & evs & E & Ht & Ha & Hb & Hx & Hp).
    exists w',
      (invocation_events r (call_inputs c) (call_outputs c) (call_batch c)
                         (next_ctx w) ++ evs).
    split; [exact E |]. split; [| split; [| split; [| split]]].
    + rewrite Ht. unfold w1. rewrite three_steps_trace_events.
      now rewrite <- app_assoc.
    + unfold allocations in *. rewrite filter_app, Ha, app_nil_r.
      apply invocation_allocates_nothing.
    + rewrite Hb. apply three_steps_dev_brk.
    + unfold executed_ptrs in *. rewrite flat_map_app, Hx.
      fold (executed_ptrs (invocation_events r (call_inputs c)
                             (call_outputs c) (call_batch c) (next_ctx w))).
      now rewrite invocation_executes_once.
    + unfold copied_device_ptrs in *. rewrite flat_map_app.
      apply Forall_app. split; [| exact Hp].
      apply invocation_copies_on_buffers.
Qed.

(** C7.  The buffers of a runner are allocated by its construction, one
    request to the device allocator per buffer, and by nothing after it:
    any sequence of invocations on that runner, each within the bounds,
    finishes without any request to the allocator; every invocation hands
    the same list of buffer pointers (the one fixed at construction) to
    the backend, and every copy addresses one of these pointers. *)
Theorem buffers_are_allocated_once_and_keep_their_pointers
        (bk : Backend) (model_file : string) (input_info : input_info_t)
        (output_names : list string) (max_batch : Z) (dtype : DataType)
        (w0 : world) (r : uff_runner_impl) (w : world) (calls : list call) :
  new_uff_runner_impl bk model_file input_info output_names max_batch dtype
                      w0
  = Done r w ->
  Forall (fun c => call_ok r (call_inputs c) (call_outputs c) (call_batch c)
                   /\ 0 < call_batch c)
         calls ->
  (exists evs0,
      trace w = trace w0 ++ evs0 /\
      allocations evs0
      = map (fun b => EvCudaMalloc (data b) (size b)) (buffers_ r))
  /\ exists w' evs,
      invoke_calls r calls w = Done tt w' /\
      trace w' = trace w ++ evs /\
      allocations evs = [] /\
      dev_brk w' = dev_brk w /\
      executed_ptrs evs = repeat (map data (buffers_ r)) (length calls) /\
      Forall (fun p => In p (map data (buffers_ r)))
             (copied_device_ptrs evs).
Proof.
  intros H Hcalls. split.
  - destruct (constructed_buffers _ _ _ _ _ _ _ _ _ H)
      as (evs & _ & _ & _ & _ & _ & _ & _ & Ht & Ha).
    now exists evs.
  - apply invoke_calls_stable.
    + eapply constructed_runner_wf. exact H.
    + eapply Forall_impl; [| exact Hcalls]. cbn. tauto.
Qed.

Lemma buffers_are_allocated_once_and_keep_their_pointers_witness :
  (exists evs0,
      trace Sample.world_built = trace Sample.world0 ++ evs0 /\
      allocations evs0
      = [EvCudaMalloc 0 192; EvCudaMalloc 192 32; EvCudaMalloc 224 8])
  /\ exists w' evs,
      invoke_calls Sample.runner
                   [([1000], [2000; 3000], 2); ([1000], [2000; 3000], 4)]
                   Sample.world_built
      = Done tt w' /\
      trace w' = trace Sample.world_built ++ evs /\
      allocations evs = [] /\
      dev_brk w' = dev_brk Sample.world_built /\
      executed_ptrs evs = [[0; 192; 224]; [0; 192; 224]] /\
      Forall (fun p => In p [0; 192; 224]) (copied_device_ptrs evs).
Proof.
  apply (buffers_are_allocated_once_and_keep_their_pointers
           Sample.backend "model.uff" Sample.input_info Sample.output_names
           4 kFLOAT Sample.world0 Sample.runner Sample.world_built
           [([1000], [2000; 3000], 2); ([1000], [2000; 3000], 4)]
           Sample_constructed).
  repeat constructor; cbn; lia.
Defined.

(** ** The frame of an invocation *)

Section Frame.

Variable r : uff_runner_impl.
Variable inputs outputs : list Z.
Variable batch_size : Z.

Hypothesis wf : runner_wf r.
Hypothesis batch_lo : 0 <= batch_size.
Hypothesis batch_hi : batch_size <= max_batch_size r.

Lemma copy_in_frame (h dev : mem) (a : Z) :
  (forall b, In b (buffers_ r) -> ~ in_slice b batch_size a) ->
  stores (map (in_store r batch_size h) (combine (input_indices r) inputs))
         dev a
  = dev a.
Proof.
  intros H. apply stores_frame. intros (st & Hst & Ha).
  apply in_map_iff in Hst. destruct Hst as ([i p] & <- & Hip).
  cbn [in_store fst snd] in Ha. rewrite load_length in Ha.
  apply (H (nth_buffer r i)).
  - eapply input_index_buffer. exact Hip.
  - unfold in_slice, slice_bytes in *. lia.
Qed.

Lemma copy_out_frame (h dev : mem) (a : Z) :
  ~ in_output_region r outputs batch_size a ->
  stores (map (out_store r batch_size dev) (combine (output_indices r) outputs))
         h a
  = h a.
Proof.
  intros H. apply stores_frame. intros (st & Hst & Ha).
  apply in_map_iff in Hst. destruct Hst as ([i p] & <- & Hip).
  cbn [out_store fst snd] in Ha. rewrite load_length in Ha.
  apply H. exists i, p. split; [exact Hip |]. lia.
Qed.

(** An address in the rows from [batch_size] on of a buffer is in the
    first [batch_size] rows of no buffer. *)
Lemma later_rows_outside_slices (b : tensor) (k a : Z) :
  In b (buffers_ r) ->
  batch_size <= k < max_batch_size r ->
  data b + k * cols b <= a < data b + k * cols b + cols b ->
  forall b', In b' (buffers_ r) -> ~ in_slice b' batch_size a.
Proof.
  intros Hb Hk Ha b' Hb' [Hs1 Hs2].
  pose proof (wf_rows r wf) as Hrows. rewrite Forall_forall in Hrows.
  pose proof (wf_cols r wf) as Hcols. rewrite Forall_forall in Hcols.
  pose proof (Hrows b Hb) as Rb. pose proof (Hrows b' Hb') as Rb'.
  pose proof (Hcols b Hb) as Cb. pose proof (Hcols b' Hb') as Cb'.
  assert (Hk1 : batch_size * cols b <= k * cols b)
    by (apply Z.mul_le_mono_nonneg_r; lia).
  assert (Hk2 : (k + 1) * cols b <= max_batch_size r * cols b)
    by (apply Z.mul_le_mono_nonneg_r; lia).
  assert (Hk3 : batch_size * cols b' <= max_batch_size r * cols b')
    by (apply Z.mul_le_mono_nonneg_r; lia).
  destruct (ForallOrdPairs_In (wf_apart r wf) b b' Hb Hb')
    as [E | [Hord | Hord]]; unfold size in *.
  - subst b'. lia.
  - rewrite Rb in Hord. lia.
  - rewrite Rb' in Hord. lia.
Qed.

Lemma in_events_within (l : list (nat * Z)) :
  (forall i p, In (i, p) l -> In (nth_buffer r i) (buffers_ r)) ->
  Forall (within_slices r batch_size) (map (in_event r batch_size) l).
Proof.
  intros H. apply Forall_forall. intros e He. apply in_map_iff in He.
  destruct He as ([i p] & <- & Hip). cbn.
  exists (nth_buffer r i). split; [eapply H; exact Hip |]. now split.
Qed.

Lemma out_events_within (l : list (nat * Z)) :
  (forall i p, In (i, p) l -> In (nth_buffer r i) (buffers_ r)) ->
  Forall (within_slices r batch_size) (map (out_event r batch_size) l).
Proof.
  intros H. apply Forall_forall. intros e He. apply in_map_iff in He.
  destruct He as ([i p] & <- & Hip). cbn.
  exists (nth_buffer r i). split; [eapply H; exact Hip |]. now split.
Qed.

Lemma invocation_within_slices (c : nat) :
  Forall (within_slices r batch_size)
         (invocation_events r inputs outputs batch_size c).
Proof.
  unfold invocation_events.
  apply Forall_app. split; [| apply Forall_app; split].
  - apply in_events_within. apply input_index_buffer.
  - repeat constructor.
  - apply out_events_within. apply output_index_buffer.
Qed.

End Frame.

(** C5.  For a well-formed runner, a batch size with
    [1 <= batchSize <= maximum], a host pointer per input and per output
    binding, and a backend whose execution writes only inside the first
    [batchSize] rows of the buffers it is given, [invoke] finishes and:
    device memory outside the first [batchSize] rows of the buffers is
    unchanged, in particular every row from [batchSize] up to the maximum
    of every buffer; every copy and the execution address the buffers
    only through their first [batchSize] rows; the allocator and the
    process-wide state are unchanged; and host memory is unchanged outside
    the regions that receive the outputs. *)
Theorem invoke_touches_only_the_first_rows
        (r : uff_runner_impl) (inputs outputs : list Z) (batch_size : Z)
        (w : world) :
  runner_wf r ->
  1 <= batch_size <= max_batch_size r ->
  (length (input_indices r) <= length inputs)%nat ->
  (length (output_indices r) <= length outputs)%nat ->
  execute_within_slices r batch_size ->
  exists w',
    invoke r inputs outputs batch_size w = Done tt w' /\
    (forall a, (forall b, In b (buffers_ r) -> ~ in_slice b batch_size a) ->
               device w' a = device w a) /\
    (forall b k,
        In b (buffers_ r) ->
        batch_size <= k < max_batch_size r ->
        load (device w') (data b + k * cols b) (Z.to_nat (cols b))
        = load (device w) (data b + k * cols b) (Z.to_nat (cols b))) /\
    (exists evs,
        trace w' = trace w ++ evs /\
        Forall (within_slices r batch_size) evs) /\
    dev_brk w' = dev_brk w /\
    protobuf_up w' = protobuf_up w /\
    (forall a, ~ in_output_region r outputs batch_size a ->
               host w' a = host w a).
Proof.
  intros Hwf [Hlo Hhi] Hin Hout Hexec.
  assert (Hok : call_ok r inputs outputs batch_size)
    by (repeat split; try assumption; lia).
  exists (three_steps r inputs outputs batch_size w).
  split; [now apply invoke_three_steps |].
  assert (Hdev : forall a,
             (forall b, In b (buffers_ r) -> ~ in_slice b batch_size a) ->
             device (three_steps r inputs outputs batch_size w) a
             = device w a).
  { intros a Ha. rewrite three_steps_device, Hexec by exact Ha.
    now apply copy_in_frame. }
  split; [exact Hdev |]. split; [| split; [| split; [| split]]].
  - intros b k Hb Hk. apply load_ext. intros a Ha. apply Hdev.
    pose proof (wf_cols r Hwf) as Hcols. rewrite Forall_forall in Hcols.
    pose proof (Hcols b Hb).
    eapply (later_rows_outside_slices r batch_size); try eassumption; lia.
  - exists (invocation_events r inputs outputs batch_size (next_ctx w)).
    split; [apply three_steps_trace_events |].
    apply invocation_within_slices.
  - apply three_steps_dev_brk.
  - apply three_steps_protobuf.
  - intros a Ha. rewrite three_steps_host. now apply copy_out_frame.
Qed.

Lemma Sample_run_within_slices (batch_size : Z) :
  0 <= batch_size ->
  execute_within_slices Sample.runner batch_size.
Proof.
  intros Hlo dev a H.
  change (Sample.run batch_size [0; 192; 224] dev a = dev a).
  pose proof (H (mkTensor 192 4 8) ltac:(cbn; auto)) as H1.
  pose proof (H (mkTensor 224 4 2) ltac:(cbn; auto)) as H2.
  unfold in_slice in H1, H2. cbn [data cols] in H1, H2.
  unfold Sample.run.
  rewrite store_outside by (rewrite load_length; lia).
  rewrite store_outside by (rewrite load_length; lia).
  reflexivity.
Qed.

Lemma invoke_touches_only_the_first_rows_witness :
  exists w',
    invoke Sample.runner [1000] [2000; 3000] 2 Sample.world1 = Done tt w' /\
    (forall a,
        (forall b, In b (buffers_ Sample.runner) -> ~ in_slice b 2 a) ->
        device w' a = device Sample.world1 a) /\
    (forall b k,
        In b (buffers_ Sample.runner) ->
        2 <= k < 4 ->
        load (device w') (data b + k * cols b) (Z.to_nat (cols b))
        = load (device Sample.world1) (data b + k * cols b)
               (Z.to_nat (cols b))) /\
    (exists evs,
        trace w' = trace Sample.world1 ++ evs /\
        Forall (within_slices Sample.runner 2) evs) /\
    dev_brk w' = dev_brk Sample.world1 /\
    protobuf_up w' = protobuf_up Sample.world1 /\
    (forall a, ~ in_output_region Sample.runner [2000; 3000] 2 a ->
               host w' a = host Sample.world1 a).
Proof.
  apply (invoke_touches_only_the_first_rows
           Sample.runner [1000] [2000; 3000] 2 Sample.world1).
  - exact Sample_runner_wf.
  - cbn. lia.
  - cbn. lia.
  - cbn. lia.
  - apply Sample_run_within_slices. lia.
Defined.

(** ** Determinism *)

Lemma in_combine_some {A B} (l1 : list A) (l2 : list B) (x : A) :
  In x l1 -> (length l1 <= length l2)%nat ->
  exists y, In (x, y) (combine l1 l2).
Proof.
  revert l2. induction l1 as [| a l1 IH]; intros l2 Hx Hlen; [easy |].
  destruct l2 as [| b l2]; cbn in Hlen; [lia |].
  destruct Hx as [-> | Hx].
  - exists b. now left.
  - destruct (IH l2 Hx) as [y Hy]; [lia |]. exists y. now right.
Qed.

Section Determinism.

Variable r : uff_runner_impl.
Variable inputs outputs : list Z.
Variable batch_size : Z.
Variables w1 w2 : world.

Hypothesis enough_inputs : (length (input_indices r) <= length inputs)%nat.
Hypothesis deterministic : execute_deterministic r batch_size.
Hypothesis same_inputs :
  forall i p,
    In (i, p) (combine (input_indices r) inputs) ->
    load (host w1) p (Z.to_nat (slice_bytes r batch_size i))
    = load (host w2) p (Z.to_nat (slice_bytes r batch_size i)).

Lemma same_in_stores :
  map (in_store r batch_size (host w1)) (combine (input_indices r) inputs)
  = map (in_store r batch_size (host w2)) (combine (input_indices r) inputs).
Proof.
  apply map_ext_in. intros [i p] Hip. unfold in_store. cbn [fst snd].
  f_equal. now apply same_inputs.
Qed.

Lemma same_input_slices (i : nat) :
  In i (input_indices r) ->
  load (stores (map (in_store r batch_size (host w1))
                    (combine (input_indices r) inputs)) (device w1))
       (data (nth_buffer r i)) (Z.to_nat (slice_bytes r batch_size i))
  = load (stores (map (in_store r batch_size (host w2))
                      (combine (input_indices r) inputs)) (device w2))
         (data (nth_buffer r i)) (Z.to_nat (slice_bytes r batch_size i)).
Proof.
  intros Hi. rewrite <- same_in_stores.
  destruct (in_combine_some _ inputs i Hi enough_inputs) as [p Hip].
  apply load_ext. intros a Ha. apply stores_agree.
  exists (in_store r batch_size (host w1) (i, p)). split.
  - apply in_map. exact Hip.
  - cbn [in_store fst snd]. now rewrite load_length.
Qed.

Lemma same_output_slices (i : nat) :
  In i (output_indices r) ->
  load (device (three_steps r inputs outputs batch_size w1))
       (data (nth_buffer r i)) (Z.to_nat (slice_bytes r batch_size i))
  = load (device (three_steps r inputs outputs batch_size w2))
         (data (nth_buffer r i)) (Z.to_nat (slice_bytes r batch_size i)).
Proof.
  intros Hi. rewrite !three_steps_device.
  apply deterministic; [| exact Hi].
  intros j Hj. now apply same_input_slices.
Qed.

Lemma same_out_stores :
  map (out_store r batch_size
                 (device (three_steps r inputs outputs batch_size w1)))
      (combine (output_indices r) outputs)
  = map (out_store r batch_size
                   (device (three_steps r inputs outputs batch_size w2)))
        (combine (output_indices r) outputs).
Proof.
  apply map_ext_in. intros [i p] Hip. unfold out_store. cbn [fst snd].
  f_equal. apply same_output_slices. eapply in_combine_l. exact Hip.
Qed.

Lemma same_host_outputs (i : nat) (p : Z) :
  In (i, p) (combine (output_indices r) outputs) ->
  load (host (three_steps r inputs outputs batch_size w1)) p
       (Z.to_nat (slice_bytes r batch_size i))
  = load (host (three_steps r inputs outputs batch_size w2)) p
         (Z.to_nat (slice_bytes r batch_size i)).
Proof.
  intros Hip. rewrite (three_steps_host r inputs outputs batch_size w1).
  rewrite (three_steps_host r inputs outputs batch_size w2).
  rewrite <- same_out_stores.
  apply load_ext. intros a Ha. apply stores_agree.
  exists (out_store r batch_size
                    (device (three_steps r inputs outputs batch_size w1))
                    (i, p)).
  split.
  - apply in_map. exact Hip.
  - cbn [out_store fst snd]. now rewrite load_length.
Qed.

End Determinism.

(** C8.  With a deterministic backend, two invocations of the same
    well-formed runner with the same pointers and the same batch size,
    started in any two states of the process (in particular one after the
    other) in which the host input regions hold the same bytes, both
    finish, and afterwards every host output region holds the same bytes
    in both. *)
Theorem invoke_is_deterministic
        (r : uff_runner_impl) (inputs outputs : list Z) (batch_size : Z)
        (w1 w2 : world) :
  runner_wf r ->
  call_ok r inputs outputs batch_size ->
  execute_deterministic r batch_size ->
  (forall i p,
      In (i, p) (combine (input_indices r) inputs) ->
      load (host w1) p (Z.to_nat (slice_bytes r batch_size i))
      = load (host w2) p (Z.to_nat (slice_bytes r batch_size i))) ->
  exists w1' w2',
    invoke r inputs outputs batch_size w1 = Done tt w1' /\
    invoke r inputs outputs batch_size w2 = Done tt w2' /\
    forall i p,
      In (i, p) (combine (output_indices r) outputs) ->
      load (host w1') p (Z.to_nat (slice_bytes r batch_size i))
      = load (host w2') p (Z.to_nat (slice_bytes r batch_size i)).
Proof.
  intros Hwf Hok Hdet Hsame.
  exists (three_steps r inputs outputs batch_size w1),
    (three_steps r inputs outputs batch_size w2).
  split; [now apply invoke_three_steps |].
  split; [now apply invoke_three_steps |].
  intros i p Hip. apply same_host_outputs; try assumption.
  apply Hok.
Qed.

Lemma Sample_run_conf (batch_size : Z) (dev : mem) (a : Z) :
  0 <= batch_size <= 4 ->
  192 <= a < 192 + batch_size * 8 ->
  Sample.run batch_size [0; 192; 224] dev a = dev (a - 192).
Proof.
  intros Hbs Ha. unfold Sample.run.
  rewrite store_outside by (rewrite load_length; lia).
  rewrite store_inside by (rewrite load_length; lia).
  rewrite nth_load by lia. f_equal. lia.
Qed.

Lemma Sample_run_paf (batch_size : Z) (dev : mem) (a : Z) :
  0 <= batch_size <= 4 ->
  224 <= a < 224 + batch_size * 2 ->
  Sample.run batch_size [0; 192; 224] dev a = dev (a - 224).
Proof.
  intros Hbs Ha. unfold Sample.run.
  rewrite store_inside by (rewrite load_length; lia).
  rewrite nth_load by lia. f_equal. lia.
Qed.

Lemma Sample_run_deterministic (batch_size : Z) :
  0 <= batch_size <= 4 ->
  execute_deterministic Sample.runner batch_size.
Proof.
  intros Hbs dev1 dev2 Hin i Hi.
  pose proof (Hin 0%nat (or_introl eq_refl)) as H0.
  change (load dev1 0 (Z.to_nat (batch_size * 48))
          = load dev2 0 (Z.to_nat (batch_size * 48))) in H0.
  assert (Hpt : forall x, 0 <= x < batch_size * 48 -> dev1 x = dev2 x).
  { intros x Hx. apply (load_eq_inv _ _ _ _ x H0). lia. }
  change (In i [1%nat; 2%nat]) in Hi.
  destruct Hi as [<- | [<- | []]].
  - change (load (Sample.run batch_size [0; 192; 224] dev1) 192
                 (Z.to_nat (batch_size * 8))
            = load (Sample.run batch_size [0; 192; 224] dev2) 192
                   (Z.to_nat (batch_size * 8))).
    apply load_ext. intros a Ha.
    rewrite !Sample_run_conf by lia. apply Hpt. lia.
  - change (load (Sample.run batch_size [0; 192; 224] dev1) 224
                 (Z.to_nat (batch_size * 2))
            = load (Sample.run batch_size [0; 192; 224] dev2) 224
                   (Z.to_nat (batch_size * 2))).
    apply load_ext. intros a Ha.
    rewrite !Sample_run_paf by lia. apply Hpt. lia.
Qed.

Lemma invoke_is_deterministic_witness :
  invoke Sample.runner [1000] [2000; 3000] 2 Sample.world1
  = Done tt Sample.world2
  /\ exists w1' w2',
      invoke Sample.runner [1000] [2000; 3000] 2 Sample.world1
      = Done tt w1' /\
      invoke Sample.runner [1000] [2000; 3000] 2 Sample.world2
      = Done tt w2' /\
      forall i p,
        In (i, p) (combine (output_indices Sample.runner) [2000; 3000]) ->
        load (host w1') p (Z.to_nat (slice_bytes Sample.runner 2 i))
        = load (host w2') p (Z.to_nat (slice_bytes Sample.runner 2 i)).
Proof.
  split.
  - apply invoke_three_steps;
      [exact Sample_runner_wf | apply Sample_call_ok; lia].
  - apply (invoke_is_deterministic
             Sample.runner [1000] [2000; 3000] 2 Sample.world1 Sample.world2).
    + exact Sample_runner_wf.
    + apply Sample_call_ok. lia.
    + apply Sample_run_deterministic. lia.
    + intros i p [E | []]. injection E as <- <-. vm_compute. reflexivity.
Defined.

(** * Further properties of the code *)

(** ** volume *)

Lemma product_with_zero (l : list Z) : In 0 l -> product l = 0.
Proof.
  induction l as [| x l IH]; intros H; [easy |].
  change (product (x :: l)) with (x * product l).
  destruct H as [-> | H]; [lia |]. rewrite IH by exact H. lia.
Qed.

(** X1.  The 64-bit wrap-around in the loop of [volume] only shows in the
    final value: [volume] is the mathematical product of the first
    [nbDims] extents reduced to [int64_t], whatever the intermediate
    products did, and it is that product itself when it fits. *)
Theorem volume_is_the_product_reduced_to_int64 (dm : Dims) :
  volume dm = MachineInt.int64 (product (shape dm))
  /\ - 2 ^ 63 <= volume dm < 2 ^ 63
  /\ (- 2 ^ 63 <= product (shape dm) < 2 ^ 63 ->
      volume dm = product (shape dm)).
Proof.
  pose proof (volume_is_wrapped_product dm) as E.
  split; [exact E |]. split.
  - rewrite E. unfold MachineInt.int64.
    pose proof (Z.mod_pos_bound (product (shape dm) + 2 ^ 63) (2 ^ 64)).
    lia.
  - intros H. rewrite E. now apply int64_small.
Qed.

Lemma volume_is_the_product_reduced_to_int64_witness :
  volume (mkDims 3 [3; 256; 192; 0; 0; 0; 0; 0]) = 147456.
Proof.
  destruct (volume_is_the_product_reduced_to_int64
              (mkDims 3 [3; 256; 192; 0; 0; 0; 0; 0])) as (_ & _ & H).
  rewrite H; [reflexivity |].
  vm_compute. split; [intro; discriminate | reflexivity].
Defined.

(** X2.  A shape with an extent of 0 among its first [nbDims] extents has
    volume 0, whatever the other extents and however their product
    overflows. *)
Theorem volume_of_a_shape_with_a_zero_extent (dm : Dims) (i : nat) :
  (i < Z.to_nat (nbDims dm))%nat ->
  dim_at dm i = 0 ->
  volume dm = 0.
Proof.
  intros Hi H0. rewrite volume_is_wrapped_product.
  rewrite product_with_zero; [reflexivity |].
  unfold shape. rewrite <- H0. apply in_map. unfold range.
  apply in_seq. lia.
Qed.

Lemma volume_of_a_shape_with_a_zero_extent_witness :
  volume (mkDims 4 [2147483647; 2147483647; 2147483647; 0; 0; 0; 0; 0])
  = 0.
Proof.
  apply (volume_of_a_shape_with_a_zero_extent _ 3%nat).
  - vm_compute. reflexivity.
  - reflexivity.
Defined.

(** ** to_string on shapes *)

Lemma string_app_assoc (s1 s2 s3 : string) :
  ((s1 ++ s2) ++ s3 = s1 ++ (s2 ++ s3))%string.
Proof. induction s1 as [| c s1 IH]; cbn; [reflexivity | now rewrite IH]. Qed.

Lemma string_app_nil_r (s : string) : (s ++ "")%string = s.
Proof. induction s as [| c s IH]; cbn; [reflexivity | now rewrite IH]. Qed.

Lemma pop_back_snoc (s : string) (c : ascii) :
  pop_back (s ++ String c EmptyString) = s.
Proof.
  induction s as [| a s IH]; [reflexivity |].
  cbn [append pop_back].
  destruct (s ++ String c EmptyString)%string eqn:E.
  - destruct s; discriminate.
  - now rewrite IH.
Qed.

Lemma pop_back_separator (s : string) :
  pop_back (pop_back (s ++ ", ")) = s.
Proof.
  change ", "%string with (String "," EmptyString ++ String " " EmptyString)%string.
  rewrite <- string_app_assoc, pop_back_snoc. apply pop_back_snoc.
Qed.

Lemma to_string_loop (f : nat -> string) (l : list nat) :
  forall acc,
    l <> [] ->
    fold_left (fun s i => (s ++ f i ++ ", ")%string) l acc
    = (acc ++ String.concat ", " (map f l) ++ ", ")%string.
Proof.
  induction l as [| i l IH]; intros acc Hne; [congruence |].
  cbn [fold_left map String.concat].
  destruct l as [| j l].
  - reflexivity.
  - rewrite IH by discriminate. cbn [map].
    now rewrite !string_app_assoc.
Qed.

(** X3.  For a shape with [nbDims >= 0], [to_string] is the extents in
    decimal, separated by a comma and a space, between parentheses: the
    two [pop_back] remove exactly the separator after the last extent,
    and the empty shape prints as "()". *)
Theorem to_string_of_a_shape (dm : Dims) :
  0 <= nbDims dm ->
  Dims_to_string dm
  = ("(" ++ String.concat ", " (map MachineInt.to_string (shape dm)) ++ ")")%string.
Proof.
  intros Hn. unfold Dims_to_string, shape.
  destruct (nbDims dm =? 0) eqn:E0.
  - apply Z.eqb_eq in E0. rewrite E0. reflexivity.
  - apply Z.eqb_neq in E0.
    rewrite map_map.
    rewrite to_string_loop.
    + rewrite <- string_app_assoc, pop_back_separator.
      now rewrite string_app_assoc.
    + unfold range. destruct (Z.to_nat (nbDims dm)) eqn:En; [lia |].
      discriminate.
Qed.

Lemma to_string_of_a_shape_witness :
  Dims_to_string (mkDims 3 [3; 256; 192; 0; 0; 0; 0; 0]) = "(3, 256, 192)"%string
  /\ Dims_to_string (mkDims 0 [0; 0; 0; 0; 0; 0; 0; 0]) = "()"%string.
Proof.
  split.
  - rewrite to_string_of_a_shape by (cbn; lia). reflexivity.
  - rewrite to_string_of_a_shape by (cbn; lia). reflexivity.
Defined.

(** ** create_engine and the description of the inputs *)

Lemma register_inputs_first_three (infos : input_info_t) :
  forall parser w,
    foreach
      (fun (info : string * list Z) parser =>
         let dims := snd info in
         c <- vec_at dims 0 ;;
         h <- vec_at dims 1 ;;
         w <- vec_at dims 2 ;;
         ret (registerInput (fst info) (mkDimsCHW c h w) kNCHW parser))
      infos parser w
    = foreach
        (fun (info : string * list Z) parser =>
           let dims := snd info in
           c <- vec_at dims 0 ;;
           h <- vec_at dims 1 ;;
           w <- vec_at dims 2 ;;
           ret (registerInput (fst info) (mkDimsCHW c h w) kNCHW parser))
        (first_three infos) parser w.
Proof.
  induction infos as [| [name dims] infos IH]; intros parser w;
    [reflexivity |].
  cbn [first_three map foreach fst snd]. fold (first_three infos).
  unfold bind at 1 3.
  destruct dims as [| c [| h [| w0 dims]]]; try reflexivity.
  cbn. apply IH.
Qed.

(** X4.  [create_engine] reads only the first three extents of every
    input shape: extents after the third never reach the parser, so an
    input description and the same description cut to three extents per
    input behave alike, for every backend and in every state. *)
Theorem create_engine_reads_three_extents
        (bk : Backend) (model_file : string) (input_info : input_info_t)
        (output_names : list string) (max_batch : Z) (dtype : DataType)
        (w : world) :
  create_engine bk model_file input_info output_names max_batch dtype w
  = create_engine bk model_file (first_three input_info) output_names
                  max_batch dtype w.
Proof.
  unfold create_engine. unfold bind at 1 5.
  now rewrite register_inputs_first_three.
Qed.

Lemma register_inputs_short (infos : input_info_t) :
  Exists (fun info : string * list Z => (length (snd info) < 3)%nat) infos ->
  forall parser w,
    foreach
      (fun (info : string * list Z) parser =>
         let dims := snd info in
         c <- vec_at dims 0 ;;
         h <- vec_at dims 1 ;;
         w <- vec_at dims 2 ;;
         ret (registerInput (fst info) (mkDimsCHW c h w) kNCHW parser))
      infos parser w
    = Undef.
Proof.
  induction infos as [| [name dims] infos IH]; intros HE parser w.
  - inversion HE.
  - cbn [foreach fst snd]. unfold bind at 1.
    destruct dims as [| c [| h [| w0 dims]]]; try reflexivity.
    cbn. apply IH. inversion HE as [? ? Hshort | ? ? Hrest]; subst.
    + cbn in Hshort. lia.
    + exact Hrest.
Qed.

(** X5.  The shape of an input is indexed without a check: when some
    input comes with fewer than three extents, [create_engine] reads
    outside the vector before the backend is ever asked; no engine and no
    diagnostic comes out of such a call, whatever the backend. *)
Theorem create_engine_needs_three_extents
        (bk : Backend) (model_file : string) (input_info : input_info_t)
        (output_names : list string) (max_batch : Z) (dtype : DataType)
        (w : world) :
  Exists (fun info : string * list Z => (length (snd info) < 3)%nat)
         input_info ->
  create_engine bk model_file input_info output_names max_batch dtype w
  = Undef
  /\ new_uff_runner_impl bk model_file input_info output_names max_batch
                         dtype w
     = Undef.
Proof.
  intros H.
  assert (E : create_engine bk model_file input_info output_names max_batch
                            dtype w = Undef).
  { unfold create_engine. unfold bind at 1.
    now rewrite register_inputs_short. }
  split; [exact E |].
  unfold new_uff_runner_impl, bind at 1. now rewrite E.
Qed.

Lemma create_engine_needs_three_extents_witness :
  create_engine Sample.backend "model.uff"
                [("image"%string, [3; 2; 2]); ("mask"%string, [2; 2])]
                Sample.output_names 4 kFLOAT Sample.world0
  = Undef
  /\ new_uff_runner_impl Sample.backend "model.uff"
                         [("image"%string, [3; 2; 2]); ("mask"%string, [2; 2])]
                         Sample.output_names 4 kFLOAT Sample.world0
     = Undef.
Proof.
  apply create_engine_needs_three_extents.
  apply Exists_cons_tl, Exists_cons_hd. cbn. lia.
Defined.

(** ** Construction runs through the bindings in order *)

Lemma foreach_app {I S : Type} (body : I -> S -> M S) (xs ys : list I) :
  forall s w,
    foreach body (xs ++ ys) s w
    = bind (foreach body xs s) (foreach body ys) w.
Proof.
  induction xs as [| x xs IH]; intros s w; [reflexivity |].
  cbn [app foreach]. unfold bind.
  destruct (body x s w) as [s' w' | |]; try reflexivity.
  rewrite IH. reflexivity.
Qed.

Lemma supported_some (engine : ICudaEngine) (i : nat) :
  spec_elementByteSize (getBindingDataType engine i) <> None ->
  exists es, spec_elementByteSize (getBindingDataType engine i) = Some es.
Proof.
  destruct (spec_elementByteSize (getBindingDataType engine i)) as [es |];
    [now exists es | congruence].
Qed.

Lemma createBuffers_loop_supported (engine : ICudaEngine) (batch_size : Z)
      (xs : list nat) :
  0 <= batch_size ->
  all_supported engine xs ->
  forall bufs w,
  exists new evs w',
    foreach (createBuffers_body engine batch_size) xs bufs w
    = Done (bufs ++ new) w' /\
    length new = length xs /\
    trace w' = trace w ++ evs /\
    stdout_lines evs = map (binding_line engine) xs /\
    malloc_ptrs evs = map data new /\
    freed_ptrs evs = [] /\
    allocations evs = map (fun b => EvCudaMalloc (data b) (size b)) new /\
    length evs = (2 * length xs)%nat.
Proof.
  intros Hlo. induction xs as [| i xs IH]; intros Hs bufs w.
  - exists [], [], w. cbn. rewrite !app_nil_r. now repeat split.
  - inversion Hs as [| ? ? Hi Hrest]; subst.
    destruct (supported_some _ _ Hi) as [es Hes].
    cbn [foreach]. unfold bind at 1.
    rewrite (createBuffers_body_supported engine batch_size i bufs w es Hes
                                          Hlo).
    set (b := buffer_for engine batch_size i es (dev_brk w)).
    set (w1 := mkWorld _ _ _ _ _ _).
    destruct (IH Hrest (bufs ++ [b]) w1)
      as (new & evs & w' & E & Hlen & Ht & Hout & Hm & Hf & Ha & Hn).
    exists (b :: new),
      ([EvStdout (binding_line engine i); EvCudaMalloc (dev_brk w) (size b)]
         ++ evs), w'.
    split; [rewrite E; now rewrite <- app_assoc |].
    split; [cbn; lia |].
    split; [rewrite Ht; unfold w1; cbn [trace]; now rewrite <- app_assoc |].
    split; [unfold stdout_lines in *; rewrite flat_map_app, Hout;
            reflexivity |].
    split; [unfold malloc_ptrs in *; rewrite flat_map_app, Hm;
            reflexivity |].
    split; [unfold freed_ptrs in *; rewrite flat_map_app, Hf;
            reflexivity |].
    split; [unfold allocations in *; rewrite filter_app, Ha;
            reflexivity |].
    rewrite length_app, Hn. cbn [length]. lia.
Qed.

Lemma range_split (n m : nat) :
  range (n + S m) = range n ++ n :: seq (S n) m.
Proof.
  unfold range. rewrite seq_app. cbn. reflexivity.
Qed.

Lemma supported_prefix (e : ICudaEngine) (pre post : list Binding)
      (b : Binding) :
  bindings e = pre ++ b :: post ->
  Forall (fun b' => spec_elementByteSize (binding_dtype b') <> None) pre ->
  all_supported e (range (length pre))
  /\ getBindingDataType e (length pre) = binding_dtype b.
Proof.
  intros Hb Hpre. split.
  - apply Forall_forall. intros i Hi. apply range_lt in Hi.
    unfold getBindingDataType, getBinding. rewrite Hb.
    rewrite app_nth1 by exact Hi.
    rewrite Forall_forall in Hpre. apply Hpre. now apply nth_In.
  - unfold getBindingDataType, getBinding. rewrite Hb.
    rewrite app_nth2 by lia. now rewrite Nat.sub_diag.
Qed.

(** X7.  When the first binding of an unsupported element type is binding
    number [k], and the shapes of the bindings 0 to [k] have
    [nbDims >= 0] (so that their lines can be printed), construction
    aborts there: by then it has printed the lines of the bindings 0 to
    [k] and obtained from the allocator the buffers of the bindings before
    [k], none of which it releases; the bindings after [k] are never
    looked at. *)
Theorem construction_aborts_at_the_first_unsupported_binding
        (bk : Backend) (model_file : string) (input_info : input_info_t)
        (output_names : list string) (max_batch : Z) (dtype : DataType)
        (w : world) (e : ICudaEngine) (pre post : list Binding)
        (b : Binding) :
  create_engine bk model_file input_info output_names max_batch dtype w
  = Done e w ->
  bindings e = pre ++ b :: post ->
  Forall (fun b' => spec_elementByteSize (binding_dtype b') <> None) pre ->
  spec_elementByteSize (binding_dtype b) = None ->
  Forall (fun b' => 0 <= nbDims (binding_dims b')) (pre ++ [b]) ->
  0 <= max_batch ->
  exists w' evs,
    new_uff_runner_impl bk model_file input_info output_names max_batch
                        dtype w
    = Fatal w' /\
    trace w'
    = trace w ++ evs ++ [EvStdout (binding_line e (length pre)); EvAbort] /\
    stdout_lines evs = map (binding_line e) (range (length pre)) /\
    length (malloc_ptrs evs) = length pre /\
    freed_ptrs evs = [] /\
    length evs = (2 * length pre)%nat.
Proof.
  intros He Hb Hpre Hbad _ Hlo.
  destruct (supported_prefix e pre post b Hb Hpre) as [Hall Hk].
  unfold new_uff_runner_impl, bind at 1. rewrite He.
  unfold bind at 1, createBuffers_, getNbBindings.
  rewrite Hb, length_app. cbn [length]. rewrite range_split, foreach_app.
  destruct (createBuffers_loop_supported e max_batch _ Hlo Hall [] w)
    as (new & evs & w1 & E & Hlen & Ht & Hout & Hm & Hf & _ & Hn).
  unfold bind at 1. rewrite E. cbn [foreach]. unfold bind at 1.
  rewrite createBuffers_body_unsupported by (rewrite Hk; exact Hbad).
  eexists. exists evs. split; [reflexivity |].
  unfold range in Hlen, Hn. rewrite length_seq in Hlen, Hn.
  cbn [trace add_event]. rewrite Ht, <- !app_assoc. cbn [app].
  repeat split; try assumption.
  now rewrite Hm, length_map.
Qed.

Lemma construction_aborts_at_the_first_unsupported_binding_witness :
  exists w' evs,
    new_uff_runner_impl Sample.backend_int32 "model.uff" Sample.input_info
                        Sample.output_names 4 kFLOAT Sample.world0
    = Fatal w' /\
    trace w'
    = trace Sample.world0 ++ evs
      ++ [EvStdout (binding_line Sample.engine_int32 1); EvAbort] /\
    stdout_lines evs = map (binding_line Sample.engine_int32) (range 1) /\
    length (malloc_ptrs evs) = 1%nat /\
    freed_ptrs evs = [] /\
    length evs = 2%nat.
Proof.
  apply (construction_aborts_at_the_first_unsupported_binding
           Sample.backend_int32 "model.uff" Sample.input_info
           Sample.output_names 4 kFLOAT Sample.world0 Sample.engine_int32
           [Sample.image] [Sample.paf] Sample.counts).
  - reflexivity.
  - reflexivity.
  - repeat constructor; discriminate.
  - reflexivity.
  - repeat apply Forall_cons; try apply Forall_nil; cbn; lia.
  - lia.
Defined.

(** ** The host pointers of an invocation *)

Section PointerCounts.

Variable r : uff_runner_impl.
Variable batch_size : Z.

Hypothesis batch_lo : 0 <= batch_size.
Hypothesis batch_hi : Forall (fun b => batch_size <= rows b) (buffers_ r).

Lemma foreach_copy_input_short (inputs : list Z) (xs : list nat) :
  forall idx w,
    (forall i, In i xs -> (i < length (buffers_ r))%nat) ->
    (idx <= length inputs)%nat ->
    (length inputs
     < idx + length (filter (bindingIsInput (engine_ r)) xs))%nat ->
    foreach (copy_input_from_host r inputs batch_size) xs idx w = Undef.
Proof.
  induction xs as [| i xs IH]; intros idx w Hin Hidx Hlen.
  - cbn in Hlen. lia.
  - cbn [foreach]. cbn [filter] in Hlen.
    unfold copy_input_from_host at 1.
    destruct (bindingIsInput (engine_ r) i) eqn:Ei.
    + cbn [length] in Hlen.
      assert (Hi : (i < length (buffers_ r))%nat) by (apply Hin; now left).
      unfold bind at 1.
      rewrite (bind_Done _ _ w w (nth_buffer r i))
        by (apply vec_at_Some, nth_error_buffer, Hi).
      rewrite (bind_Done _ _ w w _
                 (slice_prefix r batch_size batch_lo batch_hi i w Hi)).
      destruct (Nat.eq_dec idx (length inputs)) as [E | E].
      * unfold bind at 1, vec_at.
        assert (Hn : nth_error inputs idx = None)
          by (apply nth_error_None; lia).
        now rewrite Hn.
      * destruct (skipn_cons_nth inputs idx) as [p [Ep _]]; [lia |].
        rewrite (bind_Done _ _ w w p) by (apply vec_at_Some, Ep).
        unfold bind, copy_to_device, ret.
        apply IH; [intros j Hj; apply Hin; now right | lia | lia].
    + unfold bind at 1. unfold ret at 1.
      apply IH; [intros j Hj; apply Hin; now right | lia | lia].
Qed.

Lemma foreach_copy_output_short (outputs : list Z) (xs : list nat) :
  forall idx w,
    (forall i, In i xs -> (i < length (buffers_ r))%nat) ->
    (idx <= length outputs)%nat ->
    (length outputs
     < idx + length (filter (fun i => negb (bindingIsInput (engine_ r) i))
                            xs))%nat ->
    foreach (copy_output_to_host r outputs batch_size) xs idx w = Undef.
Proof.
  induction xs as [| i xs IH]; intros idx w Hin Hidx Hlen.
  - cbn in Hlen. lia.
  - cbn [foreach]. cbn [filter] in Hlen.
    unfold copy_output_to_host at 1.
    destruct (negb (bindingIsInput (engine_ r) i)) eqn:Ei.
    + cbn [length] in Hlen.
      assert (Hi : (i < length (buffers_ r))%nat) by (apply Hin; now left).
      unfold bind at 1.
      rewrite (bind_Done _ _ w w (nth_buffer r i))
        by (apply vec_at_Some, nth_error_buffer, Hi).
      rewrite (bind_Done _ _ w w _
                 (slice_prefix r batch_size batch_lo batch_hi i w Hi)).
      destruct (Nat.eq_dec idx (length outputs)) as [E | E].
      * unfold bind at 1, vec_at.
        assert (Hn : nth_error outputs idx = None)
          by (apply nth_error_None; lia).
        now rewrite Hn.
      * destruct (skipn_cons_nth outputs idx) as [p [Ep _]]; [lia |].
        rewrite (bind_Done _ _ w w p) by (apply vec_at_Some, Ep).
        unfold bind, copy_to_host, ret.
        apply IH; [intros j Hj; apply Hin; now right | lia | lia].
    + unfold bind at 1. unfold ret at 1.
      apply IH; [intros j Hj; apply Hin; now right | lia | lia].
Qed.

End PointerCounts.

(** X8.  The numbers of host pointers are not checked.  With the batch
    size within the bounds, an invocation that is given fewer input
    pointers than the engine has input bindings, or (with enough input
    pointers) fewer output pointers than it has output bindings, indexes
    the pointer vector out of range: its behaviour is not defined, and it
    is neither rejected nor completed. *)
Theorem invoke_with_too_few_pointers
        (r : uff_runner_impl) (inputs outputs : list Z) (batch_size : Z)
        (w : world) :
  runner_wf r ->
  0 <= batch_size <= max_batch_size r ->
  (length inputs < length (input_indices r))%nat
  \/ ((length (input_indices r) <= length inputs)%nat
      /\ (length outputs < length (output_indices r))%nat) ->
  invoke r inputs outputs batch_size w = Undef.
Proof.
  intros Hwf [Hlo Hhi] Hfew.
  pose proof (wf_batch_hi r batch_size Hwf Hhi) as Hrows.
  unfold invoke. unfold bind at 1. unfold assert_.
  apply Z.leb_le in Hhi. rewrite Hhi.
  unfold bind at 1.
  destruct Hfew as [Hin | [Hin Hout]].
  - rewrite (foreach_copy_input_short r batch_size Hlo Hrows inputs);
      [reflexivity | apply range_lt | lia | exact Hin].
  - rewrite (foreach_copy_input r batch_size Hlo Hrows inputs)
      by (try apply range_lt; exact Hin).
    unfold bind at 1. rewrite context_execute_block_world.
    unfold bind at 1.
    rewrite (foreach_copy_output_short r batch_size Hlo Hrows outputs);
      [reflexivity | apply range_lt | lia | exact Hout].
Qed.

Lemma invoke_with_too_few_pointers_witness :
  invoke Sample.runner [] [2000; 3000] 2 Sample.world1 = Undef
  /\ invoke Sample.runner [1000] [2000] 2 Sample.world1 = Undef.
Proof.
  split.
  - apply invoke_with_too_few_pointers;
      [exact Sample_runner_wf | cbn; lia | left; cbn; lia].
  - apply invoke_with_too_few_pointers;
      [exact Sample_runner_wf | cbn; lia | right; cbn; lia].
Defined.

Lemma combine_surplus {A B} (l : list A) (l2 extra : list B) :
  (length l <= length l2)%nat ->
  combine l (l2 ++ extra) = combine l l2.
Proof.
  revert l2. induction l as [| a l IH]; intros l2 H; [reflexivity |].
  destruct l2 as [| b l2]; cbn in H; [lia |].
  cbn. f_equal. apply IH. lia.
Qed.

(** X9.  Host pointers beyond the number of bindings are never read: for
    a call within the bounds, appending any pointers to the inputs and to
    the outputs changes nothing in what the invocation does. *)
Theorem invoke_ignores_surplus_pointers
        (r : uff_runner_impl) (inputs outputs more_in more_out : list Z)
        (batch_size : Z) (w : world) :
  runner_wf r ->
  call_ok r inputs outputs batch_size ->
  invoke r (inputs ++ more_in) (outputs ++ more_out) batch_size w
  = invoke r inputs outputs batch_size w.
Proof.
  intros Hwf Hok.
  assert (Hok' : call_ok r (inputs ++ more_in) (outputs ++ more_out)
                         batch_size).
  { destruct Hok as [Hbs [Hin Hout]].
    repeat split; try apply Hbs; rewrite length_app; lia. }
  rewrite (invoke_three_steps _ _ _ _ _ Hwf Hok).
  rewrite (invoke_three_steps _ _ _ _ _ Hwf Hok').
  destruct Hok as [_ [Hin Hout]].
  unfold three_steps, copy_out_step, copy_in_step.
  now rewrite !combine_surplus.
Qed.

Lemma invoke_ignores_surplus_pointers_witness :
  invoke Sample.runner ([1000] ++ [7000; 8000]) ([2000; 3000] ++ [9000]) 2
         Sample.world1
  = invoke Sample.runner [1000] [2000; 3000] 2 Sample.world1.
Proof.
  apply invoke_ignores_surplus_pointers;
    [exact Sample_runner_wf | apply Sample_call_ok; lia].
Defined.

(** ** Stores that do not meet *)

Lemma stores_cons (st : Z * list byte) (sts : list (Z * list byte))
      (m : mem) :
  stores (st :: sts) m = stores sts (store m (fst st) (snd st)).
Proof. reflexivity. Qed.

Lemma stores_keep_what_they_wrote (sts : list (Z * list byte)) :
  ForallOrdPairs store_apart sts ->
  forall m st,
    In st sts ->
    load (stores sts m) (fst st) (length (snd st)) = snd st.
Proof.
  induction 1 as [| s0 sts Hhead Htail IH]; intros m st Hin; [easy |].
  rewrite stores_cons. destruct Hin as [<- | Hin].
  - transitivity (load (store m (fst s0) (snd s0)) (fst s0)
                       (length (snd s0))).
    + apply load_ext. intros a Ha. apply stores_frame.
      intros (st' & Hst' & Hcov).
      rewrite Forall_forall in Hhead. specialize (Hhead st' Hst').
      unfold store_apart in Hhead. lia.
    + apply load_store_same.
  - now apply IH.
Qed.

Section OrderedPairs.

Context {A B : Type}.

Lemma FOP_map_in (R : A -> A -> Prop) (R' : B -> B -> Prop) (f : A -> B)
      (l : list A) :
  (forall x y, In x l -> In y l -> R x y -> R' (f x) (f y)) ->
  ForallOrdPairs R l -> ForallOrdPairs R' (map f l).
Proof.
  intros Himp H. induction H as [| a l Ha Hl IH]; cbn; constructor.
  - apply Forall_forall. intros y Hy. apply in_map_iff in Hy.
    destruct Hy as (x & <- & Hx). rewrite Forall_forall in Ha.
    apply Himp; [now left | now right | now apply Ha].
  - apply IH. intros x y Hx Hy. apply Himp; now right.
Qed.

Lemma FOP_filter (R : A -> A -> Prop) (f : A -> bool) (l : list A) :
  ForallOrdPairs R l -> ForallOrdPairs R (filter f l).
Proof.
  induction 1 as [| a l Ha Hl IH]; cbn; [constructor |].
  destruct (f a); [| exact IH]. constructor; [| exact IH].
  apply Forall_forall. intros y Hy. apply filter_In in Hy.
  rewrite Forall_forall in Ha. now apply Ha.
Qed.

Lemma FOP_combine_fst (R : A -> A -> Prop) (l : list A) :
  ForallOrdPairs R l ->
  forall l2 : list B,
    ForallOrdPairs (fun x y => R (fst x) (fst y)) (combine l l2).
Proof.
  induction 1 as [| a l Ha Hl IH]; intros l2; cbn; [constructor |].
  destruct l2 as [| b l2]; constructor; [| apply IH].
  apply Forall_forall. intros [x y] Hxy. apply in_combine_l in Hxy.
  rewrite Forall_forall in Ha. cbn. now apply Ha.
Qed.

Lemma FOP_nth (R : A -> A -> Prop) (d0 : A) (l : list A) :
  ForallOrdPairs R l ->
  forall i j, (i < j)%nat -> (j < length l)%nat ->
              R (nth i l d0) (nth j l d0).
Proof.
  induction 1 as [| a l Ha Hl IH]; intros i j Hij Hj; cbn in Hj; [lia |].
  destruct j as [| j]; [lia |]. destruct i as [| i]; cbn.
  - rewrite Forall_forall in Ha. apply Ha. apply nth_In. lia.
  - apply IH; lia.
Qed.

End OrderedPairs.

Lemma FOP_seq_lt (n a : nat) : ForallOrdPairs lt (seq a n).
Proof.
  revert a. induction n as [| n IH]; intros a; cbn; constructor.
  - apply Forall_forall. intros y Hy. apply in_seq in Hy. lia.
  - apply IH.
Qed.

(** ** What the backend is run on, and what comes back *)

Section DataFlow.

Variable r : uff_runner_impl.
Variable inputs outputs : list Z.
Variable batch_size : Z.

Hypothesis wf : runner_wf r.
Hypothesis batch_lo : 0 <= batch_size.
Hypothesis batch_hi : batch_size <= max_batch_size r.

Lemma slice_bytes_nonneg (i : nat) :
  (i < length (buffers_ r))%nat -> 0 <= slice_bytes r batch_size i.
Proof.
  intros Hi. unfold slice_bytes.
  pose proof (wf_cols r wf) as Hc. rewrite Forall_forall in Hc.
  apply Z.mul_nonneg_nonneg; [exact batch_lo |].
  apply Hc. now apply nth_In.
Qed.

Lemma slice_inside_buffer (i : nat) :
  (i < length (buffers_ r))%nat ->
  slice_bytes r batch_size i <= size (nth_buffer r i).
Proof.
  intros Hi. unfold slice_bytes, size.
  pose proof (wf_cols r wf) as Hc. rewrite Forall_forall in Hc.
  pose proof (wf_rows r wf) as Hr. rewrite Forall_forall in Hr.
  rewrite (Hr (nth_buffer r i)) by now apply nth_In.
  apply Z.mul_le_mono_nonneg_r; [| exact batch_hi].
  apply Hc. now apply nth_In.
Qed.

Lemma input_stores_apart (h : mem) :
  ForallOrdPairs store_apart
                 (map (in_store r batch_size h)
                      (combine (input_indices r) inputs)).
Proof.
  apply (FOP_map_in (fun x y : nat * Z => (fst x < fst y)%nat)).
  - intros [i p] [j q] Hi Hj Hij. cbn [fst] in Hij.
    apply in_combine_l in Hi, Hj. unfold input_indices in Hi, Hj.
    apply filter_In in Hi, Hj. destruct Hi as [Hi _], Hj as [Hj _].
    apply range_lt in Hi, Hj.
    pose proof (FOP_nth _ (mkTensor 0 0 0) _ (wf_apart r wf) i j Hij Hj)
      as Hap.
    fold (nth_buffer r i) in Hap. fold (nth_buffer r j) in Hap.
    cbn beta in Hap.
    pose proof (slice_bytes_nonneg i Hi).
    pose proof (slice_inside_buffer i Hi).
    left. unfold in_store. cbn [fst snd]. rewrite load_length. lia.
  - apply FOP_combine_fst. unfold input_indices. apply FOP_filter.
    apply FOP_seq_lt.
Qed.

Lemma output_stores_apart (dv : mem) :
  ForallOrdPairs (host_apart r batch_size)
                 (combine (output_indices r) outputs) ->
  ForallOrdPairs store_apart
                 (map (out_store r batch_size dv)
                      (combine (output_indices r) outputs)).
Proof.
  apply FOP_map_in.
  intros [i p] [j q] Hi Hj Hap.
  apply in_combine_l in Hi, Hj. unfold output_indices in Hi, Hj.
  apply filter_In in Hi, Hj. destruct Hi as [Hi _], Hj as [Hj _].
  apply range_lt in Hi, Hj.
  pose proof (slice_bytes_nonneg i Hi).
  pose proof (slice_bytes_nonneg j Hj).
  unfold host_apart in Hap. cbn [fst snd] in Hap.
  unfold store_apart, out_store. cbn [fst snd]. rewrite !load_length. lia.
Qed.

End DataFlow.

(** X10.  What the backend is run on.  For a well-formed runner and a
    call within the bounds, the execution sees a device memory in which
    the first [batchSize] rows of every input buffer hold the bytes found
    at the corresponding host pointer, and which is otherwise as before
    the call: the copy-in writes nothing outside the slices of the input
    bindings, in particular nothing into an output buffer. *)
Theorem invoke_runs_the_backend_on_the_host_inputs
        (r : uff_runner_impl) (inputs outputs : list Z) (batch_size : Z)
        (w : world) :
  runner_wf r ->
  call_ok r inputs outputs batch_size ->
  exists w' dev_in,
    invoke r inputs outputs batch_size w = Done tt w' /\
    device w'
    = execute (engine_ r) batch_size (map data (buffers_ r)) dev_in /\
    (forall i p,
        In (i, p) (combine (input_indices r) inputs) ->
        load dev_in (data (nth_buffer r i))
             (Z.to_nat (slice_bytes r batch_size i))
        = load (host w) p (Z.to_nat (slice_bytes r batch_size i))) /\
    (forall a,
        (forall i p, In (i, p) (combine (input_indices r) inputs) ->
                     ~ in_slice (nth_buffer r i) batch_size a) ->
        dev_in a = device w a).
Proof.
  intros Hwf Hok.
  exists (three_steps r inputs outputs batch_size w),
    (stores (map (in_store r batch_size (host w))
                 (combine (input_indices r) inputs))
            (device w)).
  split; [now apply invoke_three_steps |].
  split; [apply three_steps_device |].
  destruct Hok as [[Hlo Hhi] _]. split.
  - intros i p Hip.
    pose proof (stores_keep_what_they_wrote
                  _ (input_stores_apart r inputs batch_size Hwf Hlo Hhi
                                        (host w))
                  (device w) (in_store r batch_size (host w) (i, p))
                  (in_map _ _ _ Hip)) as E.
    cbn [in_store fst snd] in E. rewrite load_length in E. exact E.
  - intros a Ha. apply stores_frame. intros (st & Hst & Hcov).
    apply in_map_iff in Hst. destruct Hst as ([i p] & <- & Hip).
    cbn [in_store fst snd] in Hcov. rewrite load_length in Hcov.
    apply (Ha i p Hip). unfold in_slice, slice_bytes in *. lia.
Qed.

Lemma invoke_runs_the_backend_on_the_host_inputs_witness :
  exists w' dev_in,
    invoke Sample.runner [1000] [2000; 3000] 2 Sample.world1 = Done tt w' /\
    device w' = Sample.run 2 [0; 192; 224] dev_in /\
    (forall i p,
        In (i, p) (combine (input_indices Sample.runner) [1000]) ->
        load dev_in (data (nth_buffer Sample.runner i))
             (Z.to_nat (slice_bytes Sample.runner 2 i))
        = load Sample.host1 p (Z.to_nat (slice_bytes Sample.runner 2 i))) /\
    (forall a,
        (forall i p,
            In (i, p) (combine (input_indices Sample.runner) [1000]) ->
            ~ in_slice (nth_buffer Sample.runner i) 2 a) ->
        dev_in a = device Sample.world1 a).
Proof.
  apply (invoke_runs_the_backend_on_the_host_inputs
           Sample.runner [1000] [2000; 3000] 2 Sample.world1).
  - exact Sample_runner_wf.
  - apply Sample_call_ok. lia.
Defined.

(** X11.  What comes back.  For a well-formed runner and a call within
    the bounds whose host output regions do not overlap one another,
    after the invocation every host output region holds the first
    [batchSize] rows of its binding's device buffer, as the execution left
    them. *)
Theorem invoke_returns_the_output_rows
        (r : uff_runner_impl) (inputs outputs : list Z) (batch_size : Z)
        (w : world) :
  runner_wf r ->
  call_ok r inputs outputs batch_size ->
  ForallOrdPairs (host_apart r batch_size)
                 (combine (output_indices r) outputs) ->
  exists w',
    invoke r inputs outputs batch_size w = Done tt w' /\
    forall i p,
      In (i, p) (combine (output_indices r) outputs) ->
      load (host w') p (Z.to_nat (slice_bytes r batch_size i))
      = load (device w') (data (nth_buffer r i))
             (Z.to_nat (slice_bytes r batch_size i)).
Proof.
  intros Hwf Hok Hap.
  exists (three_steps r inputs outputs batch_size w).
  split; [now apply invoke_three_steps |].
  destruct Hok as [[Hlo Hhi] _].
  intros i p Hip. rewrite three_steps_host.
  set (dv := device (three_steps r inputs outputs batch_size w)).
  pose proof (stores_keep_what_they_wrote
                _ (output_stores_apart r outputs batch_size Hwf Hlo dv Hap)
                (host w) (out_store r batch_size dv (i, p))
                (in_map _ _ _ Hip)) as E.
  cbn [out_store fst snd] in E. rewrite load_length in E. exact E.
Qed.

Lemma invoke_returns_the_output_rows_witness :
  exists w',
    invoke Sample.runner [1000] [2000; 3000] 2 Sample.world1 = Done tt w' /\
    forall i p,
      In (i, p) (combine (output_indices Sample.runner) [2000; 3000]) ->
      load (host w') p (Z.to_nat (slice_bytes Sample.runner 2 i))
      = load (device w') (data (nth_buffer Sample.runner i))
             (Z.to_nat (slice_bytes Sample.runner 2 i)).
Proof.
  apply (invoke_returns_the_output_rows
           Sample.runner [1000] [2000; 3000] 2 Sample.world1).
  - exact Sample_runner_wf.
  - apply Sample_call_ok. lia.
  - change (ForallOrdPairs (host_apart Sample.runner 2)
                           [(1%nat, 2000); (2%nat, 3000)]).
    apply FOP_cons.
    + apply Forall_cons; [| apply Forall_nil].
      left. vm_compute. intro; discriminate.
    + apply FOP_cons; [apply Forall_nil | apply FOP_nil].
Defined.

(** ** Batch size 0 *)

Lemma copied_bytes_in_events (r : uff_runner_impl) (l : list (nat * Z)) :
  Forall (fun n => n = 0) (copied_bytes (map (in_event r 0) l)).
Proof.
  induction l as [| ip l IH]; cbn; [constructor |].
  constructor; [unfold slice_bytes; lia | exact IH].
Qed.

Lemma copied_bytes_out_events (r : uff_runner_impl) (l : list (nat * Z)) :
  Forall (fun n => n = 0) (copied_bytes (map (out_event r 0) l)).
Proof.
  induction l as [| ip l IH]; cbn; [constructor |].
  constructor; [unfold slice_bytes; lia | exact IH].
Qed.

(** X12.  An invocation with batch size 0 is carried out like any other:
    a context is made, the backend is executed once with batch size 0 over
    the buffer pointers, and the context is destroyed.  Every copy moves
    0 bytes, so host memory is left as it was and the backend runs on the
    device memory as it was. *)
Theorem invoke_with_batch_size_zero
        (r : uff_runner_impl) (inputs outputs : list Z) (w : world) :
  runner_wf r ->
  call_ok r inputs outputs 0 ->
  exists w' dev_in evs,
    invoke r inputs outputs 0 w = Done tt w' /\
    (forall a, host w' a = host w a) /\
    (forall a, dev_in a = device w a) /\
    device w' = execute (engine_ r) 0 (map data (buffers_ r)) dev_in /\
    trace w' = trace w ++ evs /\
    Forall (fun n => n = 0) (copied_bytes evs) /\
    executed_ptrs evs = [map data (buffers_ r)].
Proof.
  intros Hwf Hok.
  exists (three_steps r inputs outputs 0 w),
    (stores (map (in_store r 0 (host w)) (combine (input_indices r) inputs))
            (device w)),
    (invocation_events r inputs outputs 0 (next_ctx w)).
  split; [now apply invoke_three_steps |].
  split; [| split; [| split; [| split; [| split]]]].
  - intros a. rewrite three_steps_host. apply stores_frame.
    intros (st & Hst & Hcov). apply in_map_iff in Hst.
    destruct Hst as ([i p] & <- & _).
    cbn [out_store fst snd] in Hcov. rewrite load_length in Hcov.
    unfold slice_bytes in Hcov. lia.
  - intros a. apply stores_frame.
    intros (st & Hst & Hcov). apply in_map_iff in Hst.
    destruct Hst as ([i p] & <- & _).
    cbn [in_store fst snd] in Hcov. rewrite load_length in Hcov.
    unfold slice_bytes in Hcov. lia.
  - apply three_steps_device.
  - apply three_steps_trace_events.
  - unfold invocation_events, copied_bytes. rewrite !flat_map_app.
    apply Forall_app. split; [apply copied_bytes_in_events |].
    apply Forall_app. split; [cbn; constructor |].
    apply copied_bytes_out_events.
  - apply invocation_executes_once.
Qed.

Lemma invoke_with_batch_size_zero_witness :
  exists w' dev_in evs,
    invoke Sample.runner [1000] [2000; 3000] 0 Sample.world1 = Done tt w' /\
    (forall a, host w' a = host Sample.world1 a) /\
    (forall a, dev_in a = device Sample.world1 a) /\
    device w' = Sample.run 0 [0; 192; 224] dev_in /\
    trace w' = trace Sample.world1 ++ evs /\
    Forall (fun n => n = 0) (copied_bytes evs) /\
    executed_ptrs evs = [[0; 192; 224]].
Proof.
  apply (invoke_with_batch_size_zero
           Sample.runner [1000] [2000; 3000] Sample.world1).
  - exact Sample_runner_wf.
  - apply Sample_call_ok. lia.
Defined.

(** ** Construction and destruction *)









(** ** Execution contexts over a sequence of invocations *)

Lemma three_steps_next_ctx (r : uff_runner_impl) (inputs outputs : list Z)
      (batch_size : Z) (w : world) :
  next_ctx (three_steps r inputs outputs batch_size w) = S (next_ctx w).
Proof.
  unfold three_steps, copy_out_step, copy_in_step.
  rewrite copy_outs_world. cbn. now rewrite copy_ins_world.
Qed.

Lemma context_events_of_invocation (r : uff_runner_impl)
      (inputs outputs : list Z) (batch_size : Z) (c : nat) :
  context_events (invocation_events r inputs outputs batch_size c)
  = [EvCreateExecutionContext c;
     EvExecute c batch_size (map data (buffers_ r));
     EvDestroyContext c].
Proof.
  unfold invocation_events, context_events. rewrite !filter_app.
  assert (Hin : forall l, filter is_context_event
                                 (map (in_event r batch_size) l) = [])
    by (induction l; [reflexivity | assumption]).
  assert (Hout : forall l, filter is_context_event
                                  (map (out_event r batch_size) l) = [])
    by (induction l; [reflexivity | assumption]).
  rewrite Hin, Hout. reflexivity.
Qed.

(** X14.  Contexts never pile up.  Over any sequence of invocations within
    the bounds on a well-formed runner, the calls on execution contexts
    are, per invocation and in the order of the invocations: one context
    made, one execution on it with that invocation's batch size over the
    runner's buffer pointers, and its destruction; a context is always
    destroyed before the next one is made, and each is a new one. *)
Theorem one_context_per_invocation
        (r : uff_runner_impl) (calls : list call) :
  runner_wf r ->
  Forall (fun c => call_ok r (call_inputs c) (call_outputs c) (call_batch c))
         calls ->
  forall w,
  exists w' evs,
    invoke_calls r calls w = Done tt w' /\
    trace w' = trace w ++ evs /\
    context_events evs = contexts_of_calls r calls (next_ctx w) /\
    next_ctx w' = (next_ctx w + length calls)%nat.
Proof.
  intros Hwf. induction calls as [| c calls IH]; intros Hok w.
  - exists w, []. cbn. rewrite app_nil_r. repeat split. lia.
  - inversion Hok as [| ? ? Hc Hrest]; subst.
    unfold invoke_calls. cbn [foreach]. unfold bind at 1.
    rewrite (invoke_three_steps r _ _ _ w Hwf Hc).
    fold (invoke_calls r calls).
    set (w1 := three_steps r (call_inputs c) (call_outputs c) (call_batch c)
                           w).
    destruct (IH Hrest w1) as (w' & evs & E & Ht & Hctx & Hn).
    exists w',
      (invocation_events r (call_inputs c) (call_outputs c) (call_batch c)
                         (next_ctx w) ++ evs).
    split; [exact E |]. split; [| split].
    + rewrite Ht. unfold w1. rewrite three_steps_trace_events.
      now rewrite <- app_assoc.
    + unfold context_events in *. rewrite filter_app, Hctx.
      fold (context_events
              (invocation_events r (call_inputs c) (call_outputs c)
                                 (call_batch c) (next_ctx w))).
      rewrite context_events_of_invocation.
      unfold w1. rewrite three_steps_next_ctx. reflexivity.
    + rewrite Hn. unfold w1. rewrite three_steps_next_ctx. cbn [length]. lia.
Qed.

Lemma one_context_per_invocation_witness :
  exists w' evs,
    invoke_calls Sample.runner
                 [([1000], [2000; 3000], 2); ([1000], [2000; 3000], 4)]
                 Sample.world_built
    = Done tt w' /\
    trace w' = trace Sample.world_built ++ evs /\
    context_events evs
    = [EvCreateExecutionContext 0; EvExecute 0 2 [0; 192; 224];
       EvDestroyContext 0;
       EvCreateExecutionContext 1; EvExecute 1 4 [0; 192; 224];
       EvDestroyContext 1] /\
    next_ctx w' = 2%nat.
Proof.
  apply (one_context_per_invocation
           Sample.runner
           [([1000], [2000; 3000], 2); ([1000], [2000; 3000], 4)]
           Sample_runner_wf).
  repeat constructor; cbn; lia.
Defined.

(** ** What a successful create_engine has asked of the backend *)

Lemma registered_parser_facts (input_info : input_info_t)
      (output_names : list string) :
  map (fun reg => fst (fst reg))
      (registered_inputs (registered_parser input_info output_names))
  = map fst input_info
  /\ Forall (fun reg => snd reg = kNCHW)
            (registered_inputs (registered_parser input_info output_names))
  /\ registered_outputs (registered_parser input_info output_names)
     = output_names.
Proof.
  unfold registered_parser. cbn [registered_inputs registered_outputs].
  split; [| split; [| reflexivity]].
  - rewrite map_map. reflexivity.
  - apply Forall_forall. intros reg Hreg. apply in_map_iff in Hreg.
    destruct Hreg as (info & <- & _). reflexivity.
Qed.

(** X15.  When [create_engine] returns an engine, it has logged nothing
    and changed nothing; every input came with at least three extents;
    and the engine is the one that the builder made, at the given maximum
    batch size, from the network that the parser read with: the inputs
    registered in the order of the description, each by its name with its
    first three extents as (C, H, W) and always in NCHW order, and the
    outputs registered in the order given. *)
Theorem create_engine_on_success
        (bk : Backend) (model_file : string) (input_info : input_info_t)
        (output_names : list string) (max_batch : Z) (dtype : DataType)
        (w : world) (e : ICudaEngine) (w' : world) :
  create_engine bk model_file input_info output_names max_batch dtype w
  = Done e w' ->
  w' = w
  /\ Forall (fun info : string * list Z => (3 <= length (snd info))%nat)
            input_info
  /\ (exists net,
         parse bk (protobuf_up w) model_file
               (registered_parser input_info output_names) dtype = Some net /\
         buildCudaEngine bk max_batch net = Some e)
  /\ map (fun reg => fst (fst reg))
         (registered_inputs (registered_parser input_info output_names))
     = map fst input_info
  /\ Forall (fun reg => snd reg = kNCHW)
            (registered_inputs (registered_parser input_info output_names))
  /\ registered_outputs (registered_parser input_info output_names)
     = output_names.
Proof.
  intros H.
  assert (H3 : Forall (fun info : string * list Z =>
                         (3 <= length (snd info))%nat) input_info).
  { destruct (Forall_Exists_dec
                (fun info : string * list Z => (3 <= length (snd info))%nat)
                (fun info => le_dec 3 (length (snd info))) input_info)
      as [HF | HE]; [exact HF |].
    exfalso.
    assert (HE' : Exists (fun info : string * list Z =>
                            (length (snd info) < 3)%nat) input_info).
    { eapply Exists_impl; [| exact HE]. cbn. intros info Hn. lia. }
    unfold create_engine in H. unfold bind at 1 in H.
    rewrite register_inputs_short in H by exact HE'. discriminate. }
  split; [eapply create_engine_world; exact H |].
  split; [exact H3 |].
  split; [| apply registered_parser_facts].
  rewrite create_engine_cases in H by exact H3.
  destruct (parse bk (protobuf_up w) model_file
                  (registered_parser input_info output_names) dtype)
    as [net |]; [| discriminate].
  exists net. split; [reflexivity |].
  destruct (buildCudaEngine bk max_batch net) as [e' |]; [| discriminate].
  injection H as <- _. reflexivity.
Qed.

Lemma create_engine_on_success_witness :
  Forall (fun info : string * list Z => (3 <= length (snd info))%nat)
         Sample.input_info
  /\ (exists net,
         parse Sample.backend (protobuf_up Sample.world0) "model.uff"
               (registered_parser Sample.input_info Sample.output_names)
               kFLOAT = Some net /\
         buildCudaEngine Sample.backend 4 net = Some Sample.engine)
  /\ registered_inputs
       (registered_parser Sample.input_info Sample.output_names)
     = [("image"%string, mkDimsCHW 3 2 2, kNCHW)].
Proof.
  destruct (create_engine_on_success
              Sample.backend "model.uff" Sample.input_info
              Sample.output_names 4 kFLOAT Sample.world0 Sample.engine
              Sample.world0 eq_refl)
    as (_ & H3 & Hnet & _).
  split; [exact H3 |]. split; [exact Hnet | reflexivity].
Defined.


(** ** Round trip through an invocation *)




